(** * logit-go: the time-rotating log writer

    A shallow embedding of [TimeRotatingWriter] (constructor, [Write],
    [Close]) in both revisions found in the repository, and the
    properties the specification states about it.

    The writer talks to three collaborators that are not part of the
    repository: the clock of package [time], the mutex of package [sync]
    and the [lumberjack.Logger] sink.  A method body is therefore a
    program over the calls it makes to them ([Prog]); an environment
    ([Env]) answers the calls, and [run] produces the value returned, the
    final environment state and the sequence of calls observed.

    The second revision of the logging facade around the writer (module
    [logit]: contexts, the logging methods, [fileName], [MustNewLogger])
    is embedded the same way, over the calls it makes to the uuid
    generator, zap and Sentry. *)

From Stdlib Require Import ZArith List String Ascii Strings.Byte Bool Lia Sorted.
Import ListNotations.

Local Open Scope Z_scope.

(** ** Go data *)

(** [int64] arithmetic: Go's [time.Duration] and the monotonic clock
    reading carried by a [time.Time] are both [int64]. *)
Definition minInt64 : Z := - 2 ^ 63.
Definition maxInt64 : Z := 2 ^ 63 - 1.

Definition int64 (z : Z) : Prop := minInt64 <= z <= maxInt64.

Definition wrap64 (z : Z) : Z := (z + 2 ^ 63) mod 2 ^ 64 - 2 ^ 63.

(** [time.Duration]: nanoseconds. *)
Definition Duration := Z.
Definition minDuration : Duration := minInt64.
Definition maxDuration : Duration := maxInt64.

(** [time.Time] as produced by [time.Now()]: every such value carries a
    monotonic clock reading, and [Since], [Sub] and the comparisons use
    only that reading when it is present. *)
Definition Time := Z.

(** [time.subMono]: the difference of two monotonic readings, saturated. *)
Definition subMono (t u : Z) : Duration :=
  let d := wrap64 (t - u) in
  if (d <? 0) && (t >? u) then maxDuration
  else if (d >? 0) && (t <? u) then minDuration
  else d.

(** A Go [error] is an interface value; what [%v] prints of it is the
    result of its [Error] method. *)
Inductive error : Type :=
| errors_New (msg : string).

Definition Error (e : error) : string :=
  match e with errors_New msg => msg end.

(** [*lumberjack.Logger]: a pointer, so the writer holds the address of
    the sink, not the sink. *)
Definition LoggerPtr := positive.

(** ** Calls to the collaborators *)

Inductive Prog (A : Type) : Type :=
| Ret (a : A)
| MuLock (k : Prog A)
| MuUnlock (k : Prog A)
| TimeNow (k : Time -> Prog A)
| LoggerRotate (l : LoggerPtr) (k : option error -> Prog A)
| LoggerWrite (l : LoggerPtr) (p : list byte) (k : Z * option error -> Prog A)
| LoggerClose (l : LoggerPtr) (k : option error -> Prog A).

Arguments Ret {A} a.
Arguments MuLock {A} k.
Arguments MuUnlock {A} k.
Arguments TimeNow {A} k.
Arguments LoggerRotate {A} l k.
Arguments LoggerWrite {A} l p k.
Arguments LoggerClose {A} l k.

Fixpoint bind {A B : Type} (m : Prog A) (f : A -> Prog B) : Prog B :=
  match m with
  | Ret a => f a
  | MuLock k => MuLock (bind k f)
  | MuUnlock k => MuUnlock (bind k f)
  | TimeNow k => TimeNow (fun t => bind (k t) f)
  | LoggerRotate l k => LoggerRotate l (fun r => bind (k r) f)
  | LoggerWrite l p k => LoggerWrite l p (fun r => bind (k r) f)
  | LoggerClose l k => LoggerClose l (fun r => bind (k r) f)
  end.

Declare Scope prog_scope.
Delimit Scope prog_scope with prog.
Notation "x <- m ;; k" := (bind m (fun x => k))
  (at level 61, m at next level, right associativity) : prog_scope.
Notation "' pat <- m ;; k" := (bind m (fun x => match x with pat => k end))
  (at level 61, pat pattern, m at next level, right associativity) : prog_scope.
Local Open Scope prog_scope.

Definition mu_Lock : Prog unit := MuLock (Ret tt).
Definition mu_Unlock : Prog unit := MuUnlock (Ret tt).
Definition time_Now : Prog Time := TimeNow (fun t => Ret t).
Definition Logger_Rotate (l : LoggerPtr) : Prog (option error) :=
  LoggerRotate l (fun r => Ret r).
Definition Logger_Write (l : LoggerPtr) (p : list byte) : Prog (Z * option error) :=
  LoggerWrite l p (fun r => Ret r).
Definition Logger_Close (l : LoggerPtr) : Prog (option error) :=
  LoggerClose l (fun r => Ret r).

(** [time.Since(t)]: one clock reading, then [subMono]. *)
Definition time_Since (t : Time) : Prog Duration :=
  now <- time_Now ;; Ret (subMono now t).

(** [defer w.mu.Unlock()] after [w.mu.Lock()]: the body runs with the
    lock held and the lock is released on every return. *)
Definition locked {A : Type} (body : Prog A) : Prog A :=
  _ <- mu_Lock ;; r <- body ;; _ <- mu_Unlock ;; Ret r.

(** ** The writer *)

(** The struct without its [mu] field: the mutex has no data the methods
    read, its use is the [MuLock] and [MuUnlock] calls. *)
Record TimeRotatingWriter : Type := mkWriter {
  Logger : LoggerPtr;
  rotationTime : Duration;
  lastRotation : Time
}.

Definition set_lastRotation (w : TimeRotatingWriter) (t : Time) : TimeRotatingWriter :=
  {| Logger := Logger w; rotationTime := rotationTime w; lastRotation := t |}.

Definition NewTimeRotatingWriter (logger : LoggerPtr) (rotationTime : Duration)
  : Prog TimeRotatingWriter :=
  now <- time_Now ;;
  Ret {| Logger := logger; rotationTime := rotationTime; lastRotation := now |}.

(** [fmt.Errorf] at the two places the writer calls it, with [%v]
    replaced by the text of the error. *)
Definition Errorf_write_after_rotate (writeErr err : error) : error :=
  errors_New ("ошибка записи после ошибки ротации: " ++ Error writeErr
              ++ " (ошибка ротации: " ++ Error err ++ ")").

Definition Errorf_rotate (err : error) : error :=
  errors_New ("ошибка ротации лог-файла: " ++ Error err).

(** The receiver is a pointer: a method returns the struct it leaves
    behind together with its results [(n, err)]. *)
Definition WriteResult : Type := TimeRotatingWriter * (Z * option error).

(** What the [if] statement at the head of [Write] does to the rest of
    the function: it returns from inside, or falls through to the final
    [return w.Logger.Write(p)] with the struct it left. *)
Inductive Flow : Type :=
| Return (res : WriteResult)
| FallThrough (w : TimeRotatingWriter).

(** [a && b] where [b] makes calls: [b] is evaluated only if [a] holds. *)
Definition andalso (a : bool) (b : Prog bool) : Prog bool :=
  if a then b else Ret false.

(** The final statement of both revisions. *)
Definition finish (f : Flow) (p : list byte) : Prog WriteResult :=
  match f with
  | Return res => Ret res
  | FallThrough w => r <- Logger_Write (Logger w) p ;; Ret (w, r)
  end.

Module V1.

(** The first revision of [Write]: no test of the sign of
    [rotationTime], and a failed rotation ends the call. *)
Definition Write_body (w : TimeRotatingWriter) (p : list byte) : Prog WriteResult :=
  since <- time_Since (lastRotation w) ;;
  f <- (if since >=? rotationTime w then
          rerr <- Logger_Rotate (Logger w) ;;
          match rerr with
          | Some err => Ret (Return (w, (0, Some err)))
          | None => now <- time_Now ;; Ret (FallThrough (set_lastRotation w now))
          end
        else Ret (FallThrough w)) ;;
  finish f p.

Definition Write (w : TimeRotatingWriter) (p : list byte) : Prog WriteResult :=
  locked (Write_body w p).

End V1.

(** The second revision of [Write]. *)
Definition rotation_due (w : TimeRotatingWriter) : Prog bool :=
  andalso (rotationTime w >? 0)
          (since <- time_Since (lastRotation w) ;; Ret (since >=? rotationTime w)).

Definition Write_body (w : TimeRotatingWriter) (p : list byte) : Prog WriteResult :=
  due <- rotation_due w ;;
  f <- (if due then
          rerr <- Logger_Rotate (Logger w) ;;
          match rerr with
          | Some err =>
              '(currentN, werr) <- Logger_Write (Logger w) p ;;
              match werr with
              | Some writeErr =>
                  Ret (Return (w, (0, Some (Errorf_write_after_rotate writeErr err))))
              | None =>
                  Ret (Return (w, (currentN, Some (Errorf_rotate err))))
              end
          | None => now <- time_Now ;; Ret (FallThrough (set_lastRotation w now))
          end
        else Ret (FallThrough w)) ;;
  finish f p.

Definition Write (w : TimeRotatingWriter) (p : list byte) : Prog WriteResult :=
  locked (Write_body w p).

Definition Close (w : TimeRotatingWriter) : Prog (option error) :=
  locked (Logger_Close (Logger w)).

(** ** Environments and runs *)

Inductive Event : Type :=
| ELock
| EUnlock
| ENow (t : Time)
| ERotate (l : LoggerPtr) (r : option error)
| EWrite (l : LoggerPtr) (p : list byte) (r : Z * option error)
| EClose (l : LoggerPtr) (r : option error).

(** An environment decides what the clock shows and what the sink
    answers; [St] is whatever it needs to remember. *)
Record Env (St : Type) : Type := mkEnv {
  env_now : St -> Time * St;
  env_rotate : LoggerPtr -> St -> option error * St;
  env_write : LoggerPtr -> list byte -> St -> (Z * option error) * St;
  env_close : LoggerPtr -> St -> option error * St
}.

Arguments env_now {St} e s.
Arguments env_rotate {St} e l s.
Arguments env_write {St} e l p s.
Arguments env_close {St} e l s.

Record Outcome (St A : Type) : Type := mkOutcome {
  result : A;
  final : St;
  trace : list Event
}.

Arguments mkOutcome {St A} result final trace.
Arguments result {St A} o.
Arguments final {St A} o.
Arguments trace {St A} o.

Definition emit {St A : Type} (ev : Event) (o : Outcome St A) : Outcome St A :=
  mkOutcome (result o) (final o) (ev :: trace o).

Fixpoint run {St A : Type} (e : Env St) (m : Prog A) (s : St) : Outcome St A :=
  match m with
  | Ret a => mkOutcome a s []
  | MuLock k => emit ELock (run e k s)
  | MuUnlock k => emit EUnlock (run e k s)
  | TimeNow k =>
      let '(t, s') := env_now e s in emit (ENow t) (run e (k t) s')
  | LoggerRotate l k =>
      let '(r, s') := env_rotate e l s in emit (ERotate l r) (run e (k r) s')
  | LoggerWrite l p k =>
      let '(r, s') := env_write e l p s in emit (EWrite l p r) (run e (k r) s')
  | LoggerClose l k =>
      let '(r, s') := env_close e l s in emit (EClose l r) (run e (k r) s')
  end.

(** What the sink sees of a run: its own three operations. *)
Definition is_sink_call (ev : Event) : bool :=
  match ev with
  | ERotate _ _ | EWrite _ _ _ | EClose _ _ => true
  | _ => false
  end.

Definition sink_calls (tr : list Event) : list Event := filter is_sink_call tr.

Definition is_rotate (ev : Event) : bool :=
  match ev with ERotate _ _ => true | _ => false end.

Definition is_clock_read (ev : Event) : bool :=
  match ev with ENow _ => true | _ => false end.

Definition is_lock_event (ev : Event) : bool :=
  match ev with ELock | EUnlock => true | _ => false end.

Definition rotations (tr : list Event) : nat := List.length (filter is_rotate tr).

Definition clock_reads (tr : list Event) : nat := List.length (filter is_clock_read tr).

(** [needle] occurs in [hay]. *)
Definition contains (hay needle : string) : Prop :=
  exists pre post : string, hay = (pre ++ needle ++ post)%string.

(** ** Test environments *)

(** A world whose state is the time: a clock reading shows the time, and
    every call takes [dt]; the sink answers the same way each time. *)
Definition steady (dt : Z) (rot : option error)
    (wr : list byte -> Z * option error) (cl : option error) : Env Z :=
  {| env_now := fun s => (s, s + dt);
     env_rotate := fun _ s => (rot, s + dt);
     env_write := fun _ p s => (wr p, s + dt);
     env_close := fun _ s => (cl, s + dt) |}.

(** A sink write that takes everything. *)
Definition write_all (p : list byte) : Z * option error :=
  (Z.of_nat (List.length p), None).

(** A sink write that fails with [err]. *)
Definition write_fails (err : error) (p : list byte) : Z * option error :=
  (0, Some err).

Definition hour : Duration := 3600 * 1000000000.

Definition sample_writer (interval : Duration) : TimeRotatingWriter :=
  {| Logger := 1%positive; rotationTime := interval; lastRotation := 0 |}.

Definition disk_full : error := errors_New "disk full".
Definition permission_denied : error := errors_New "permission denied".

(** A sink in good order; one whose rotate fails; one whose rotate and
    write both fail. *)
Definition calm : Env Z := steady 1 None write_all None.
Definition stuck : Env Z := steady 1 (Some disk_full) write_all None.
Definition broken : Env Z :=
  steady 1 (Some disk_full) (write_fails permission_denied) None.

(** ** Sequences of calls on one writer *)

Inductive Call : Type :=
| CallWrite (p : list byte)
| CallClose.

Definition call (w : TimeRotatingWriter) (c : Call) : Prog TimeRotatingWriter :=
  match c with
  | CallWrite p => r <- Write w p ;; Ret (fst r)
  | CallClose => _ <- Close w ;; Ret w
  end.

(** The writer and the world after each call of [cs], in order. *)
Fixpoint lifetime {St : Type} (e : Env St) (w : TimeRotatingWriter) (s : St)
    (cs : list Call) : list (TimeRotatingWriter * St) :=
  match cs with
  | [] => []
  | c :: cs' =>
      let o := run e (call w c) s in
      (result o, final o) :: lifetime e (result o) (final o) cs'
  end.

(** The same from the construction of the writer on. *)
Definition history {St : Type} (e : Env St) (logger : LoggerPtr)
    (interval : Duration) (s : St) (cs : list Call)
  : list (TimeRotatingWriter * St) :=
  let o := run e (NewTimeRotatingWriter logger interval) s in
  (result o, final o) :: lifetime e (result o) (final o) cs.

(** Everything the sink and the clock saw during [cs]. *)
Fixpoint lifetime_trace {St : Type} (e : Env St) (w : TimeRotatingWriter) (s : St)
    (cs : list Call) : list Event :=
  match cs with
  | [] => []
  | c :: cs' =>
      let o := run e (call w c) s in
      trace o ++ lifetime_trace e (result o) (final o) cs'
  end.

(** A clock that does not run backwards: [clk] is the time in a state of
    the world, a reading lies between the time before and the time after
    it, and no call of the sink turns the time back. *)
Record MonotoneClock {St : Type} (e : Env St) (clk : St -> Time) : Prop := {
  now_between : forall s, clk s <= fst (env_now e s) <= clk (snd (env_now e s));
  rotate_later : forall l s, clk s <= clk (snd (env_rotate e l s));
  write_later : forall l p s, clk s <= clk (snd (env_write e l p s));
  close_later : forall l s, clk s <= clk (snd (env_close e l s))
}.

(** The two revisions of [Write] agree on one call: same results, same
    calls seen by the sink. *)
Definition same_behaviour {St : Type} (e : Env St) (s : St)
    (w : TimeRotatingWriter) (p : list byte) : Prop :=
  let o1 := run e (V1.Write w p) s in
  let o2 := run e (Write w p) s in
  snd (result o1) = snd (result o2) /\
  sink_calls (trace o1) = sink_calls (trace o2).

(** What a [Write] may have done to the writer [w] it was called on. *)
Definition only_lastRotation_changed {St : Type} (w : TimeRotatingWriter)
    (o : Outcome St WriteResult) : Prop :=
  rotationTime (fst (result o)) = rotationTime w /\
  Logger (fst (result o)) = Logger w /\
  (fst (result o) = w \/
   exists (t : Time) (before after : list Event),
     fst (result o) = set_lastRotation w t /\
     trace o = before ++ ERotate (Logger w) None :: ENow t :: after).

Definition is_write (ev : Event) : bool :=
  match ev with EWrite _ _ _ => true | _ => false end.

(** The error a call of the sink answered with, if any. *)
Definition sink_error (ev : Event) : option error :=
  match ev with
  | ERotate _ r => r
  | EWrite _ _ (_, r) => r
  | EClose _ r => r
  | _ => None
  end.

Definition sink_failed (ev : Event) : bool :=
  match sink_error ev with Some _ => true | None => false end.

(** ** The logging facade (package [logit], second revision of logit.go) *)

Module logit.

(** *** Interface values and contexts *)

(** A value of type [any]: its dynamic type and what it holds.  The
    package tells apart strings and its own [contextKey]; [any_other]
    stands for a value of any other type. *)
Inductive any : Type :=
| any_string (s : string)
| any_contextKey (s : string)
| any_other (type repr : string).

(** [==] on interface values: the same dynamic type and equal values. *)
Definition any_eqb (a b : any) : bool :=
  match a, b with
  | any_string x, any_string y => String.eqb x y
  | any_contextKey x, any_contextKey y => String.eqb x y
  | any_other t x, any_other u y => String.eqb t u && String.eqb x y
  | _, _ => false
  end.

Definition opKey : any := any_contextKey "op".
Definition traceIDKey : any := any_contextKey "traceId".

(** A non-nil [context.Context], as far as [Value] can tell: the pairs
    added by [context.WithValue], the latest first. *)
Definition Context : Type := list (any * any).

Definition context_Background : Context := [].

Definition context_WithValue (parent : Context) (key val : any) : Context :=
  (key, val) :: parent.

(** [ctx.Value(key)]; [None] is the nil interface. *)
Fixpoint Value (ctx : Context) (key : any) : option any :=
  match ctx with
  | [] => None
  | (k, v) :: parent => if any_eqb k key then Some v else Value parent key
  end.

(** The type assertion [v.(string)] with its [ok]. *)
Definition as_string (v : option any) : option string :=
  match v with
  | Some (any_string s) => Some s
  | _ => None
  end.

(** *** The logger of package zap, as the calls that build it *)

Inductive LevelEncoder : Type :=
| CapitalColorLevelEncoder
| CapitalLevelEncoder.

Inductive DurationEncoder : Type :=
| StringDurationEncoder.

Record EncoderConfig : Type := {
  TimeKey : string;
  LevelKey : string;
  NameKey : string;
  MessageKey : string;
  StacktraceKey : string;
  LineEnding : string;
  EncodeLevel : LevelEncoder;
  EncodeTime : string;
  EncodeDuration : DurationEncoder
}.

Inductive Encoder : Type :=
| NewJSONEncoder (cfg : EncoderConfig)
| NewConsoleEncoder (cfg : EncoderConfig).

(** [zapcore.Level] is an [int8]. *)
Definition wrap8 (z : Z) : Z := (z + 2 ^ 7) mod 2 ^ 8 - 2 ^ 7.
Definition zapcore_Level (n : Z) : Z := wrap8 n.
Definition zapcore_ErrorLevel : Z := 2.

Inductive WriteSyncer : Type :=
| Lock_Stdout
| AddSync_TimeRotatingWriter (w : TimeRotatingWriter)
| AddSync_Lumberjack (l : LoggerPtr).

#[warnings="-register-all"]
Inductive Core : Type :=
| NewNopCore
| NewCore (enc : Encoder) (ws : WriteSyncer) (level : Z)
| multiCore (cores : list Core).

(** [zapcore.NewTee]. *)
Definition NewTee (cores : list Core) : Core :=
  match cores with
  | [] => NewNopCore
  | [c] => c
  | _ => multiCore cores
  end.

Inductive Field : Type :=
| zap_String (key val : string)
| zap_Error (err : error)
| zap_Any (key : string) (val : any).

(** [*zap.Logger]: the core it writes to, the level from which
    [AddStacktrace] records stacks, if given, and the fields added by
    [With]. *)
Record ZapLogger : Type := {
  core : Core;
  addStacktrace : option Z;
  withFields : list Field
}.

Definition zap_New (c : Core) (stack : option Z) : ZapLogger :=
  {| core := c; addStacktrace := stack; withFields := [] |}.

Definition zap_With (lg : ZapLogger) (fields : list Field) : ZapLogger :=
  {| core := core lg; addStacktrace := addStacktrace lg;
     withFields := withFields lg ++ fields |}.

Record logIt : Type := { logger : ZapLogger }.

(** *** What the facade asks of the world *)

Inductive ZapMethod : Type :=
| zap_Debug | zap_Info | zap_Warn | zap_Error_ | zap_Fatal.

Module sentry.
Record ClientOptions : Type := {
  Dsn : string;
  TracesSampleRate : Z;
  Debug : bool;
  Environment : string;
  Release : string
}.
End sentry.

Module lumberjack.
(** The fields of [lumberjack.Logger] that the package sets. *)
Record Logger : Type := {
  Filename : string;
  MaxSize : Z;
  MaxBackups : Z;
  MaxAge : Z;
  Compress : bool
}.
End lumberjack.

Inductive Act (A : Type) : Type :=
| Done (a : A)
| Panic (v : string)
| UuidNew (k : string -> Act A)
| NowFormat (layout : string) (k : string -> Act A)
| ZapCall (lg : ZapLogger) (m : ZapMethod) (msg : string) (fields : list Field)
          (k : Act A)
| CaptureException (err : error) (k : Act A)
| SentryInit (o : sentry.ClientOptions) (k : option error -> Act A)
| Stderr (s : string) (k : Act A)
| AllocLumberjack (cfg : lumberjack.Logger) (k : LoggerPtr -> Act A)
| Sub (X : Type) (p : Prog X) (k : X -> Act A).

Arguments Done {A} a.
Arguments Panic {A} v.
Arguments UuidNew {A} k.
Arguments NowFormat {A} layout k.
Arguments ZapCall {A} lg m msg fields k.
Arguments CaptureException {A} err k.
Arguments SentryInit {A} o k.
Arguments Stderr {A} s k.
Arguments AllocLumberjack {A} cfg k.
Arguments Sub {A X} p k.

Fixpoint act_bind {A B : Type} (m : Act A) (f : A -> Act B) : Act B :=
  match m with
  | Done a => f a
  | Panic v => Panic v
  | UuidNew k => UuidNew (fun u => act_bind (k u) f)
  | NowFormat layout k => NowFormat layout (fun d => act_bind (k d) f)
  | ZapCall lg m msg fields k => ZapCall lg m msg fields (act_bind k f)
  | CaptureException err k => CaptureException err (act_bind k f)
  | SentryInit o k => SentryInit o (fun r => act_bind (k r) f)
  | Stderr s k => Stderr s (act_bind k f)
  | AllocLumberjack cfg k => AllocLumberjack cfg (fun l => act_bind (k l) f)
  | Sub p k => Sub p (fun x => act_bind (k x) f)
  end.

Declare Scope act_scope.
Delimit Scope act_scope with act.
Notation "x <- m ;; k" := (act_bind m (fun x => k))
  (at level 61, m at next level, right associativity) : act_scope.
Local Open Scope act_scope.

(** [uuid.New().String()]. *)
Definition uuid_New_String : Act string := UuidNew (fun u => Done u).

Definition logger_call (lg : ZapLogger) (m : ZapMethod) (msg : string)
    (fields : list Field) : Act unit :=
  ZapCall lg m msg fields (Done tt).

Definition sentry_CaptureException (err : error) : Act unit :=
  CaptureException err (Done tt).

(** What [err.Error()] does when [err] is nil. *)
Definition nil_dereference : string :=
  "runtime error: invalid memory address or nil pointer dereference".

(** *** Contexts of the facade *)

(** A [context.Context] argument may be nil. *)
Definition orBackground (ctx : option Context) : Context :=
  match ctx with
  | None => context_Background
  | Some c => c
  end.

Definition getOpFromContext (l : logIt) (ctx : option Context) : string :=
  match ctx with
  | None => "unknown_op_nil_context"
  | Some c =>
      match as_string (Value c opKey) with
      | Some op => op
      | None => "unknown_op"
      end
  end.

Definition getTraceIDFromContext (l : logIt) (ctx : option Context) : Act string :=
  match ctx with
  | None => uuid_New_String
  | Some c =>
      match as_string (Value c traceIDKey) with
      | Some traceID => Done traceID
      | None => uuid_New_String
      end
  end.

Definition NewCtx (l : logIt) (ctx : option Context) (op : string)
    (traceID : option string) : Act Context :=
  let ctx := orBackground ctx in
  currentTraceID <-
    match traceID with
    | Some t => Done t
    | None =>
        match as_string (Value ctx traceIDKey) with
        | Some existingTraceID =>
            if negb (String.eqb existingTraceID "") then Done existingTraceID
            else uuid_New_String
        | None => uuid_New_String
        end
    end ;;
  let ctx := context_WithValue ctx opKey (any_string op) in
  Done (context_WithValue ctx traceIDKey (any_string currentTraceID)).

Definition NewOpCtx (l : logIt) (ctx : option Context) (op : string) : Context :=
  let ctx := orBackground ctx in
  context_WithValue ctx opKey (any_string op).

Definition NewTraceCtx (l : logIt) (ctx : option Context)
    (traceID : option string) : Act Context :=
  let ctx := orBackground ctx in
  currentTraceID <-
    match traceID with
    | Some t => Done t
    | None => uuid_New_String
    end ;;
  Done (context_WithValue ctx traceIDKey (any_string currentTraceID)).

Definition NewTraceContext (l : logIt) (traceID : option string) : Act Context :=
  currentTraceID <-
    match traceID with
    | Some t => Done t
    | None => uuid_New_String
    end ;;
  Done (context_WithValue context_Background traceIDKey (any_string currentTraceID)).

(** *** The logging methods *)

Section Logging.

(** [fmt.Sprintf], taken as it is. *)
Variable Sprintf : string -> list any -> string.

(** [fmt.Errorf(format, args...)]: an error whose text is the formatted
    string. *)
Definition fmt_Errorf (format : string) (args : list any) : error :=
  errors_New (Sprintf format args).

Definition Debug (l : logIt) (ctx : option Context) (message : string)
    (fields : list Field) : Act unit :=
  let op := getOpFromContext l ctx in
  traceID <- getTraceIDFromContext l ctx ;;
  let allFields := [zap_String "op" op; zap_String "traceId" traceID] ++ fields in
  logger_call (logger l) zap_Debug message allFields.

Definition Info (l : logIt) (ctx : option Context) (message : string)
    (fields : list Field) : Act unit :=
  let op := getOpFromContext l ctx in
  traceID <- getTraceIDFromContext l ctx ;;
  logger_call (logger l) zap_Info message
    ([zap_String "op" op; zap_String "traceId" traceID] ++ fields).

Definition Infof (l : logIt) (ctx : option Context) (message : string)
    (a : list any) : Act unit :=
  let op := getOpFromContext l ctx in
  traceID <- getTraceIDFromContext l ctx ;;
  logger_call (logger l) zap_Info (Sprintf message a)
    [zap_String "op" op; zap_String "traceId" traceID].

Definition Warn (l : logIt) (ctx : option Context) (message : string)
    (fields : list Field) : Act unit :=
  let op := getOpFromContext l ctx in
  traceID <- getTraceIDFromContext l ctx ;;
  logger_call (logger l) zap_Warn message
    ([zap_String "op" op; zap_String "traceId" traceID] ++ fields).

Definition Warnf (l : logIt) (ctx : option Context) (message : string)
    (a : list any) : Act unit :=
  let op := getOpFromContext l ctx in
  traceID <- getTraceIDFromContext l ctx ;;
  logger_call (logger l) zap_Warn (Sprintf message a)
    [zap_String "op" op; zap_String "traceId" traceID].

Definition Errorf (l : logIt) (ctx : option Context) (format : string)
    (args : list any) : Act unit :=
  let op := getOpFromContext l ctx in
  traceID <- getTraceIDFromContext l ctx ;;
  let err := fmt_Errorf format args in
  _ <- logger_call (logger l) zap_Error_ (Error err)
         [zap_String "op" op; zap_String "traceId" traceID; zap_Error err] ;;
  sentry_CaptureException err.

Definition Fatal (l : logIt) (ctx : option Context) (err : option error)
    (fields : list Field) : Act unit :=
  let op := getOpFromContext l ctx in
  traceID <- getTraceIDFromContext l ctx ;;
  match err with
  | None => Panic nil_dereference
  | Some e =>
      logger_call (logger l) zap_Fatal (Error e)
        ([zap_String "op" op; zap_String "traceId" traceID; zap_Error e] ++ fields)
  end.

Definition Fatalf (l : logIt) (ctx : option Context) (format : string)
    (args : list any) : Act unit :=
  let op := getOpFromContext l ctx in
  traceID <- getTraceIDFromContext l ctx ;;
  let err := fmt_Errorf format args in
  logger_call (logger l) zap_Fatal (Error err)
    [zap_String "op" op; zap_String "traceId" traceID; zap_Error err].

(** The method [Error] of [logIt]. *)
Definition logIt_Error (l : logIt) (ctx : option Context) (err : option error)
    (fields : list Field) : Act unit :=
  let op := getOpFromContext l ctx in
  traceID <- getTraceIDFromContext l ctx ;;
  match err with
  | None => Panic nil_dereference
  | Some e =>
      _ <- logger_call (logger l) zap_Error_ (Error e)
             ([zap_String "op" op; zap_String "traceId" traceID; zap_Error e]
              ++ fields) ;;
      sentry_CaptureException e
  end.

(** One call of a logging method of the interface [Logger]. *)
Inductive LogCall : Type :=
| CallDebug (message : string) (fields : list Field)
| CallInfo (message : string) (fields : list Field)
| CallInfof (message : string) (a : list any)
| CallWarn (message : string) (fields : list Field)
| CallWarnf (message : string) (a : list any)
| CallError (err : option error) (fields : list Field)
| CallErrorf (format : string) (args : list any)
| CallFatal (err : option error) (fields : list Field)
| CallFatalf (format : string) (args : list any).

Definition log (l : logIt) (ctx : option Context) (c : LogCall) : Act unit :=
  match c with
  | CallDebug message fields => Debug l ctx message fields
  | CallInfo message fields => Info l ctx message fields
  | CallInfof message a => Infof l ctx message a
  | CallWarn message fields => Warn l ctx message fields
  | CallWarnf message a => Warnf l ctx message a
  | CallError err fields => logIt_Error l ctx err fields
  | CallErrorf format args => Errorf l ctx format args
  | CallFatal err fields => Fatal l ctx err fields
  | CallFatalf format args => Fatalf l ctx format args
  end.

(** A call of [Fatal] or [Fatalf]. *)
Definition fatal (c : LogCall) : bool :=
  match c with
  | CallFatal _ _ | CallFatalf _ _ => true
  | _ => false
  end.

(** A call that passes a nil [error]. *)
Definition nil_error (c : LogCall) : bool :=
  match c with
  | CallError None _ | CallFatal None _ => true
  | _ => false
  end.

(** The fields the caller passed. *)
Definition passed_fields (c : LogCall) : list Field :=
  match c with
  | CallDebug _ fields | CallInfo _ fields | CallWarn _ fields
  | CallError _ fields | CallFatal _ fields => fields
  | _ => []
  end.

(** The error of a call of [Error] or [Errorf]. *)
Definition reported (c : LogCall) : option error :=
  match c with
  | CallError (Some e) _ => Some e
  | CallErrorf format args => Some (fmt_Errorf format args)
  | _ => None
  end.

End Logging.

(** *** File names *)

(** [strings.ReplaceAll(s, old, new)] for an [old] of one byte, the only
    way the package calls it: every [old] becomes [new]. *)
Fixpoint strings_ReplaceAll (s : string) (old : ascii) (new : string) : string :=
  match s with
  | EmptyString => EmptyString
  | String c rest =>
      if Ascii.eqb c old then (new ++ strings_ReplaceAll rest old new)%string
      else String c (strings_ReplaceAll rest old new)
  end.

Definition slash : ascii := "/"%char.

Definition fileName (appName appVersion : string) : Act string :=
  let safeAppName := strings_ReplaceAll appName slash "_" in
  let safeAppVersion := strings_ReplaceAll appVersion slash "_" in
  currentDate <- NowFormat "2006-01-02" (fun d => Done d) ;;
  Done (safeAppName ++ "_" ++ safeAppVersion ++ "_" ++ currentDate ++ ".log")%string.

Definition has_slash (s : string) : bool :=
  existsb (fun c => Ascii.eqb c slash) (list_ascii_of_string s).

Definition NewNopLogger : logIt :=
  let nopCore := NewNopCore in
  let nopLogger := zap_New nopCore None in
  {| logger := nopLogger |}.

(** *** Running the facade *)

Inductive Effect : Type :=
| FxUuid (u : string)
| FxNowFormat (layout out : string)
| FxZap (lg : ZapLogger) (m : ZapMethod) (msg : string) (fields : list Field)
| FxCapture (err : error)
| FxSentryInit (o : sentry.ClientOptions) (r : option error)
| FxStderr (s : string)
| FxAlloc (cfg : lumberjack.Logger) (l : LoggerPtr)
| FxSub (tr : list Event).

(** The world of the facade: the clock and the sink as before, and what
    the uuid generator, [time.Now().Format], [sentry.Init] and the
    allocator answer; calls without an answer may still change the
    world. *)
Record World (St : Type) : Type := {
  world_env : Env St;
  world_uuid : St -> string * St;
  world_format : string -> St -> string * St;
  world_sentry_init : sentry.ClientOptions -> St -> option error * St;
  world_alloc : lumberjack.Logger -> St -> LoggerPtr * St;
  world_after : Effect -> St -> St
}.

Arguments world_env {St} w.
Arguments world_uuid {St} w s.
Arguments world_format {St} w layout s.
Arguments world_sentry_init {St} w o s.
Arguments world_alloc {St} w cfg s.
Arguments world_after {St} w fx s.

(** How a run ends: with a value, in a panic with its argument, or with
    the process gone ([os.Exit]). *)
Inductive Ending (A : Type) : Type :=
| Returned (a : A)
| Panicked (v : string)
| Exited (code : Z).

Arguments Returned {A} a.
Arguments Panicked {A} v.
Arguments Exited {A} code.

Record ActOutcome (St A : Type) : Type := mkActOutcome {
  ending : Ending A;
  world_final : St;
  effects : list Effect
}.

Arguments mkActOutcome {St A} ending world_final effects.
Arguments ending {St A} _.
Arguments world_final {St A} _.
Arguments effects {St A} _.

Definition record {St A : Type} (fx : Effect) (o : ActOutcome St A)
  : ActOutcome St A :=
  mkActOutcome (ending o) (world_final o) (fx :: effects o).

(** A call of [Fatal] on a zap logger writes the record and ends the
    process with [os.Exit(1)] (the package sets no other hook), as the
    comments in the method [Fatal] say; every other call returns. *)
Fixpoint perform {St A : Type} (w : World St) (m : Act A) (s : St)
  : ActOutcome St A :=
  match m with
  | Done a => mkActOutcome (Returned a) s []
  | Panic v => mkActOutcome (Panicked v) s []
  | UuidNew k =>
      let '(u, s') := world_uuid w s in record (FxUuid u) (perform w (k u) s')
  | NowFormat layout k =>
      let '(d, s') := world_format w layout s in
      record (FxNowFormat layout d) (perform w (k d) s')
  | ZapCall lg m msg fields k =>
      let fx := FxZap lg m msg fields in
      match m with
      | zap_Fatal => mkActOutcome (Exited 1) (world_after w fx s) [fx]
      | _ => record fx (perform w k (world_after w fx s))
      end
  | CaptureException err k =>
      let fx := FxCapture err in
      record fx (perform w k (world_after w fx s))
  | SentryInit o k =>
      let '(r, s') := world_sentry_init w o s in
      record (FxSentryInit o r) (perform w (k r) s')
  | Stderr msg k =>
      let fx := FxStderr msg in
      record fx (perform w k (world_after w fx s))
  | AllocLumberjack cfg k =>
      let '(l, s') := world_alloc w cfg s in
      record (FxAlloc cfg l) (perform w (k l) s')
  | Sub p k =>
      let o := run (world_env w) p s in
      record (FxSub (trace o)) (perform w (k (result o)) (final o))
  end.

(** The sinks a core writes to. *)
Fixpoint syncers (c : Core) : list WriteSyncer :=
  match c with
  | NewNopCore => []
  | NewCore _ ws _ => [ws]
  | multiCore cores =>
      (fix all (cs : list Core) : list WriteSyncer :=
         match cs with
         | [] => []
         | c' :: cs' => syncers c' ++ all cs'
         end) cores
  end.

Definition is_uuid (fx : Effect) : bool :=
  match fx with FxUuid _ => true | _ => false end.

Definition is_zap (fx : Effect) : bool :=
  match fx with FxZap _ _ _ _ => true | _ => false end.

Definition is_capture (fx : Effect) : bool :=
  match fx with FxCapture _ => true | _ => false end.

Definition is_sentry_init (fx : Effect) : bool :=
  match fx with FxSentryInit _ _ => true | _ => false end.

(** A world to try the facade in: the state counts the calls, the
    clock shows the count, the uuid generator hands out [a-id], [b-id],
    and so on, and it is always the second of January. *)
Definition ticking : Env nat :=
  {| env_now := fun s => (Z.of_nat s, S s);
     env_rotate := fun _ s => (None, S s);
     env_write := fun _ p s => (write_all p, S s);
     env_close := fun _ s => (None, S s) |}.

Definition sample_uuid (n : nat) : string :=
  String (ascii_of_nat (97 + n)) "-id".

Definition office : World nat :=
  {| world_env := ticking;
     world_uuid := fun s => (sample_uuid s, S s);
     world_format := fun _ s => ("2025-01-02"%string, S s);
     world_sentry_init := fun _ s => (None, S s);
     world_alloc := fun _ s => (7%positive, S s);
     world_after := fun _ s => S s |}.

(** The same, with a Sentry that cannot be reached. *)
Definition offline : World nat :=
  {| world_env := ticking;
     world_uuid := fun s => (sample_uuid s, S s);
     world_format := fun _ s => ("2025-01-02"%string, S s);
     world_sentry_init := fun _ s => (Some (errors_New "no route to host"), S s);
     world_alloc := fun _ s => (7%positive, S s);
     world_after := fun _ s => S s |}.

Definition nop : logIt := {| logger := zap_New NewNopCore None |}.

(** *** Configuration (package configo, by the fields the facade reads) *)

Module configo.
Record App : Type := { Name : string; Version : string }.
Record Logger : Type := {
  EnableConsole : bool;
  ConsoleLevel : Z;
  EnableFile : bool;
  FileLevel : Z;
  Dir : string;
  MaxSize : Z;
  MaxBackups : Z;
  MaxAge : Z;
  Compress : bool;
  TimeFormat : string;
  RotationTime : string
}.
Record Sentry : Type := { Key : string; Host : string }.
(** [Env] with the results of its methods [IsLocal()] and [String()]. *)
Record Env : Type := { IsLocal : bool; String_ : string }.
End configo.

(** The pointers of [Params] may be nil. *)
Record Params : Type := {
  AppConf : option configo.App;
  LoggerConf : option configo.Logger;
  SenConf : option configo.Sentry;
  Env : option configo.Env
}.

Section Construction.

(** [time.ParseDuration] and [filepath.Join], taken as they are. *)
Variable ParseDuration : string -> Duration + error.
Variable filepath_Join : string -> string -> string.

Definition sentry_init_failed (err : error) : string :=
  ("Ошибка инициализации Sentry: " ++ Error err ++ String (ascii_of_nat 10) "")%string.

Definition bad_rotation_time (err : error) : string :=
  ("Некорректное время ротации (RotationTime): " ++ Error err
   ++ ". Используйте формат вроде '24h', '5m'.")%string.

Definition set_EncodeLevel (cfg : EncoderConfig) (enc : LevelEncoder) : EncoderConfig :=
  {| TimeKey := TimeKey cfg; LevelKey := LevelKey cfg; NameKey := NameKey cfg;
     MessageKey := MessageKey cfg; StacktraceKey := StacktraceKey cfg;
     LineEnding := LineEnding cfg; EncodeLevel := enc;
     EncodeTime := EncodeTime cfg; EncodeDuration := EncodeDuration cfg |}.

Definition MustNewLogger (params : option Params) : Act logIt :=
  match params with
  | None => Panic "logger: параметры инициализации (params) не могут быть nil"
  | Some params =>
  match AppConf params with
  | None => Panic "logger: конфигурация приложения (AppConf) не может быть nil"
  | Some appConf =>
  match LoggerConf params with
  | None => Panic "logger: конфигурация логгера (LoggerConf) не может быть nil"
  | Some loggerConf =>
  match Env params with
  | None => Panic "logger: конфигурация окружения (Env) не может быть nil"
  | Some env =>
    let encoderConfig :=
      {| TimeKey := "time"; LevelKey := "level"; NameKey := "logger";
         MessageKey := "msg"; StacktraceKey := "stacktrace";
         LineEnding := String (ascii_of_nat 10) "";
         EncodeLevel := CapitalColorLevelEncoder;
         EncodeTime := configo.TimeFormat loggerConf;
         EncodeDuration := StringDurationEncoder |} in
    encoder <-
      (if negb (configo.IsLocal env) then
         _ <- match SenConf params with
              | Some senConf =>
                  if negb (String.eqb (configo.Key senConf) "")
                     && negb (String.eqb (configo.Host senConf) "")
                  then
                    err <- SentryInit
                             {| sentry.Dsn :=
                                  "https://" ++ configo.Key senConf ++ "@"
                                  ++ configo.Host senConf;
                                sentry.TracesSampleRate := 1;
                                sentry.Debug := configo.IsLocal env;
                                sentry.Environment := configo.String_ env;
                                sentry.Release :=
                                  configo.Name appConf ++ "@"
                                  ++ configo.Version appConf |}
                             (fun r => Done r) ;;
                    match err with
                    | Some e => Stderr (sentry_init_failed e) (Done tt)
                    | None => Done tt
                    end
                  else Done tt
              | None => Done tt
              end ;;
         let encoderConfig := set_EncodeLevel encoderConfig CapitalLevelEncoder in
         Done (NewJSONEncoder encoderConfig)
       else Done (NewConsoleEncoder encoderConfig)) ;;
    let cores : list Core := [] in
    let cores :=
      if configo.EnableConsole loggerConf then
        let consoleWriter := Lock_Stdout in
        cores ++ [NewCore encoder consoleWriter
                    (zapcore_Level (configo.ConsoleLevel loggerConf))]
      else cores in
    cores <-
      (if configo.EnableFile loggerConf then
         match ParseDuration (configo.RotationTime loggerConf) with
         | inr err => Panic (bad_rotation_time err)
         | inl rotationTime =>
             name <- fileName (configo.Name appConf) (configo.Version appConf) ;;
             let logFilePath := filepath_Join (configo.Dir loggerConf) name in
             lumberjackLogger <-
               AllocLumberjack
                 {| lumberjack.Filename := logFilePath;
                    lumberjack.MaxSize := configo.MaxSize loggerConf;
                    lumberjack.MaxBackups := configo.MaxBackups loggerConf;
                    lumberjack.MaxAge := configo.MaxAge loggerConf;
                    lumberjack.Compress := configo.Compress loggerConf |}
                 (fun l => Done l) ;;
             writer <-
               (if rotationTime >? 0 then
                  timeRotatingWriter <-
                    Sub (NewTimeRotatingWriter lumberjackLogger rotationTime)
                        (fun w => Done w) ;;
                  Done (AddSync_TimeRotatingWriter timeRotatingWriter)
                else Done (AddSync_Lumberjack lumberjackLogger)) ;;
             Done (cores ++ [NewCore encoder writer
                               (zapcore_Level (configo.FileLevel loggerConf))])
         end
       else Done cores) ;;
    _ <- (if (List.length cores =? 0)%nat then
            if negb (configo.EnableConsole loggerConf)
               && negb (configo.EnableFile loggerConf)
            then Panic "logger: не включен ни консольный, ни файловый вывод логов."
            else Done tt
          else Done tt) ;;
    let core := NewTee cores in
    let logger := zap_New core (Some zapcore_ErrorLevel) in
    let fields := [zap_String "appName" (configo.Name appConf);
                   zap_String "appVersion" (configo.Version appConf)] in
    let logger := zap_With logger fields in
    Done {| logger := logger |}
  end end end end.

(** The configurations [MustNewLogger] refuses. *)
Definition misconfigured (params : option Params) : Prop :=
  match params with
  | None => True
  | Some params =>
      match AppConf params, LoggerConf params, Env params with
      | Some _, Some loggerConf, Some _ =>
          (configo.EnableFile loggerConf = true /\
           exists err : error,
             ParseDuration (configo.RotationTime loggerConf) = inr err) \/
          (configo.EnableConsole loggerConf = false /\
           configo.EnableFile loggerConf = false)
      | _, _, _ => True
      end
  end.

End Construction.

(** Durations and paths to try the construction with. *)
Definition sample_ParseDuration (s : string) : Duration + error :=
  if String.eqb s "24h" then inl (24 * hour)
  else if String.eqb s "0s" then inl 0
  else inr (errors_New ("time: invalid duration " ++ s)).

Definition sample_Join (dir name : string) : string :=
  (dir ++ "/" ++ name)%string.

Definition sample_logger_conf (rotation : string) : configo.Logger :=
  {| configo.EnableConsole := true; configo.ConsoleLevel := 0;
     configo.EnableFile := true; configo.FileLevel := 0;
     configo.Dir := "logs"; configo.MaxSize := 10; configo.MaxBackups := 3;
     configo.MaxAge := 365; configo.Compress := true;
     configo.TimeFormat := "2006-01-02T15:04:05.000Z07:00";
     configo.RotationTime := rotation |}.

Definition sample_params (rotation : string) (local : bool) : Params :=
  {| AppConf := Some {| configo.Name := "billing/api"; configo.Version := "1.0.0" |};
     LoggerConf := Some (sample_logger_conf rotation);
     SenConf := Some {| configo.Key := "key"; configo.Host := "sentry.example.com" |};
     Env := Some {| configo.IsLocal := local; configo.String_ := "prod" |} |}.

Close Scope act_scope.

End logit.

(** * Properties *)

(** ** The clock arithmetic *)

Lemma wrap64_id (z : Z) : int64 z -> wrap64 z = z.
Proof.
  unfold int64, minInt64, maxInt64, wrap64. intros H.
  rewrite Z.mod_small by lia. lia.
Qed.

Lemma wrap64_above (z : Z) :
  maxInt64 < z < 2 ^ 64 -> wrap64 z = z - 2 ^ 64.
Proof.
  unfold maxInt64, wrap64. intros H.
  replace (z + 2 ^ 63) with ((z - 2 ^ 63) + 1 * 2 ^ 64) by lia.
  rewrite Z.mod_add by lia. rewrite Z.mod_small by lia. lia.
Qed.

Lemma wrap64_below (z : Z) :
  - 2 ^ 64 < z < minInt64 -> wrap64 z = z + 2 ^ 64.
Proof.
  unfold minInt64, wrap64. intros H.
  replace (z + 2 ^ 63) with ((z + 2 ^ 63 + 2 ^ 64) + (-1) * 2 ^ 64) by lia.
  rewrite Z.mod_add by lia. rewrite Z.mod_small by lia. lia.
Qed.

(** On [int64] readings [subMono] is the difference cut to [int64]. *)
Lemma subMono_saturates (t u : Z) :
  int64 t -> int64 u ->
  subMono t u = Z.max minInt64 (Z.min maxInt64 (t - u)).
Proof.
  intros Ht Hu. unfold subMono, maxDuration, minDuration.
  unfold int64, minInt64, maxInt64 in Ht, Hu.
  destruct (Z_lt_le_dec maxInt64 (t - u)) as [Hhi | Hhi].
  - rewrite wrap64_above by (unfold maxInt64 in *; lia).
    unfold maxInt64, minInt64 in *.
    replace (t - u - 2 ^ 64 <? 0) with true by (symmetry; apply Z.ltb_lt; lia).
    replace (t >? u) with true by (symmetry; apply Z.gtb_lt; lia).
    simpl. lia.
  - destruct (Z_lt_le_dec (t - u) minInt64) as [Hlo | Hlo].
    + rewrite wrap64_below by (unfold minInt64 in *; lia).
      unfold maxInt64, minInt64 in *.
      replace (t - u + 2 ^ 64 <? 0) with false by (symmetry; apply Z.ltb_ge; lia).
      replace (t - u + 2 ^ 64 >? 0) with true by (symmetry; apply Z.gtb_lt; lia).
      replace (t <? u) with true by (symmetry; apply Z.ltb_lt; lia).
      simpl. lia.
    + rewrite wrap64_id by (unfold int64; lia).
      unfold maxInt64, minInt64 in *.
      destruct (t - u <? 0) eqn:Hneg; destruct (t >? u) eqn:Hgt; simpl;
        try (apply Z.ltb_lt in Hneg); try (apply Z.gtb_lt in Hgt); try lia;
        destruct (t - u >? 0) eqn:Hpos; destruct (t <? u) eqn:Hlt; simpl;
        try (apply Z.gtb_lt in Hpos); try (apply Z.ltb_lt in Hlt); lia.
Qed.

(** Against a positive interval the saturation changes no verdict. *)
Lemma since_due (t u d : Z) :
  int64 t -> int64 u -> int64 d -> 0 < d ->
  (subMono t u >=? d) = (t - u >=? d).
Proof.
  intros Ht Hu Hd Hpos. rewrite subMono_saturates by assumption.
  unfold int64, minInt64, maxInt64 in *.
  destruct (t - u >=? d) eqn:E.
  - rewrite Z.geb_le in *. lia.
  - rewrite Z.geb_leb in *. rewrite Z.leb_gt in *. lia.
Qed.

(** ** Runs *)

Lemma run_bind {St A B : Type} (e : Env St) (m : Prog A) (f : A -> Prog B) (s : St) :
  run e (bind m f) s =
  let o := run e m s in
  let o' := run e (f (result o)) (final o) in
  mkOutcome (result o') (final o') (trace o ++ trace o').
Proof.
  revert s. induction m as [a | k IH | k IH | k IH | l k IH | l p k IH | l k IH];
    intros s; simpl.
  - destruct (run e (f a) s); reflexivity.
  - rewrite IH. reflexivity.
  - rewrite IH. reflexivity.
  - destruct (env_now e s) as [t s']. rewrite IH. reflexivity.
  - destruct (env_rotate e l s) as [r s']. rewrite IH. reflexivity.
  - destruct (env_write e l p s) as [r s']. rewrite IH. reflexivity.
  - destruct (env_close e l s) as [r s']. rewrite IH. reflexivity.
Qed.

(** Case analysis on the next answer of the environment. *)
Ltac answer :=
  match goal with
  | |- context [env_now ?e ?s] =>
      let t := fresh "t" in let s' := fresh "s" in let E := fresh "Hnow" in
      destruct (env_now e s) as [t s'] eqn:E; simpl
  | |- context [env_rotate ?e ?l ?s] =>
      let r := fresh "rerr" in let s' := fresh "s" in let E := fresh "Hrot" in
      destruct (env_rotate e l s) as [[r |] s'] eqn:E; simpl
  | |- context [env_write ?e ?l ?p ?s] =>
      let n := fresh "n" in let r := fresh "werr" in
      let s' := fresh "s" in let E := fresh "Hwr" in
      destruct (env_write e l p s) as [[n [r |]] s'] eqn:E; simpl
  | |- context [env_close ?e ?l ?s] =>
      let r := fresh "cerr" in let s' := fresh "s" in let E := fresh "Hcl" in
      destruct (env_close e l s) as [r s'] eqn:E; simpl
  end.

Ltac unfold_write :=
  unfold Write, V1.Write, Write_body, V1.Write_body, rotation_due, andalso,
    locked, time_Since, time_Now, mu_Lock, mu_Unlock, Logger_Rotate,
    Logger_Write, finish; simpl.

(** The four ways through the second revision of [Write]. *)

Lemma Write_disabled {St : Type} (e : Env St) (s : St)
    (w : TimeRotatingWriter) (p : list byte) :
  rotationTime w <= 0 ->
  run e (Write w p) s =
  let '(r, s1) := env_write e (Logger w) p s in
  mkOutcome (w, r) s1 [ELock; EWrite (Logger w) p r; EUnlock].
Proof.
  intros H. unfold_write.
  replace (rotationTime w >? 0) with false
    by (symmetry; rewrite Z.gtb_ltb; apply Z.ltb_ge; lia).
  simpl. destruct (env_write e (Logger w) p s) as [r s1]. reflexivity.
Qed.


Lemma Write_rotated {St : Type} (e : Env St) (s : St)
    (w : TimeRotatingWriter) (p : list byte) (t : Time) (s1 s2 : St) :
  0 < rotationTime w ->
  env_now e s = (t, s1) ->
  (subMono t (lastRotation w) >=? rotationTime w) = true ->
  env_rotate e (Logger w) s1 = (None, s2) ->
  run e (Write w p) s =
  let '(t', s3) := env_now e s2 in
  let '(r, s4) := env_write e (Logger w) p s3 in
  mkOutcome (set_lastRotation w t', r) s4
    [ELock; ENow t; ERotate (Logger w) None; ENow t'; EWrite (Logger w) p r; EUnlock].
Proof.
  intros H Hnow Hdue Hrot. unfold_write.
  replace (rotationTime w >? 0) with true
    by (symmetry; apply Z.gtb_lt; lia).
  simpl. rewrite Hnow. simpl. rewrite Hdue. simpl. rewrite Hrot. simpl.
  destruct (env_now e s2) as [t' s3]. simpl.
  destruct (env_write e (Logger w) p s3) as [r s4]. reflexivity.
Qed.

Lemma Write_rotate_failed {St : Type} (e : Env St) (s : St)
    (w : TimeRotatingWriter) (p : list byte) (t : Time) (s1 s2 : St) (err : error) :
  0 < rotationTime w ->
  env_now e s = (t, s1) ->
  (subMono t (lastRotation w) >=? rotationTime w) = true ->
  env_rotate e (Logger w) s1 = (Some err, s2) ->
  run e (Write w p) s =
  let '((n, werr), s3) := env_write e (Logger w) p s2 in
  mkOutcome
    (w, match werr with
        | Some writeErr => (0, Some (Errorf_write_after_rotate writeErr err))
        | None => (n, Some (Errorf_rotate err))
        end)
    s3
    [ELock; ENow t; ERotate (Logger w) (Some err); EWrite (Logger w) p (n, werr); EUnlock].
Proof.
  intros H Hnow Hdue Hrot. unfold_write.
  replace (rotationTime w >? 0) with true
    by (symmetry; apply Z.gtb_lt; lia).
  simpl. rewrite Hnow. simpl. rewrite Hdue. simpl. rewrite Hrot. simpl.
  destruct (env_write e (Logger w) p s2) as [[n [writeErr |]] s3]; reflexivity.
Qed.

(** Every way through either revision, one goal each. *)
Ltac paths :=
  unfold_write;
  repeat first
    [ answer
    | match goal with
      | |- context [if ?b then _ else _] =>
          let E := fresh "Htest" in destruct b eqn:E; simpl
      end ].

(** ** Interval gating *)

(** C1.  With an interval above zero, a [Write] that reads the clock at
    [t] does not call the sink's rotate when [t - lastRotation] is below
    the interval, and calls it exactly once, as the first thing the sink
    sees and before the write, when [t - lastRotation] has reached the
    interval.  The second revision then always delegates the write; the
    first revision does so unless the rotation failed. *)
Theorem Write_interval_gating :
  forall (St : Type) (e : Env St) (s : St) (w : TimeRotatingWriter) (p : list byte),
    0 < rotationTime w ->
    int64 (rotationTime w) -> int64 (lastRotation w) -> int64 (fst (env_now e s)) ->
    let t := fst (env_now e s) in
    let o := run e (Write w p) s in
    let o1 := run e (V1.Write w p) s in
    (firstn 2 (trace o) = [ELock; ENow t] /\ firstn 2 (trace o1) = [ELock; ENow t]) /\
    (t - lastRotation w < rotationTime w ->
       rotations (trace o) = 0%nat /\ rotations (trace o1) = 0%nat) /\
    (t - lastRotation w >= rotationTime w ->
       (rotations (trace o) = 1%nat /\
        exists r res,
          sink_calls (trace o) = [ERotate (Logger w) r; EWrite (Logger w) p res]) /\
       (rotations (trace o1) = 1%nat /\
        exists r rest,
          sink_calls (trace o1) = ERotate (Logger w) r :: rest /\
          (rest = [] \/ exists res, rest = [EWrite (Logger w) p res]))).
Proof.
  intros St e s w p Hpos Hd Hu Ht t o o1. subst t o o1.
  pose proof (since_due (fst (env_now e s)) (lastRotation w) (rotationTime w)
                Ht Hu Hd Hpos) as Hsince.
  assert (Hgt : (rotationTime w >? 0) = true) by (apply Z.gtb_lt; lia).
  unfold rotations, sink_calls.
  destruct (env_now e s) as [t s1] eqn:Hnow. simpl in Hsince, Ht |- *.
  unfold_write. rewrite Hgt. simpl. rewrite !Hnow. simpl.
  rewrite Hsince.
  destruct (t - lastRotation w >=? rotationTime w) eqn:Hdue; simpl.
  - apply Z.geb_le in Hdue.
    destruct (env_rotate e (Logger w) s1) as [[err |] s2]; simpl.
    + destruct (env_write e (Logger w) p s2) as [[n [werr |]] s3]; simpl;
        (split; [split; reflexivity |]); (split; [intros; lia |]); intros _;
        (split; [split; [reflexivity | eauto] |]);
        (split; [reflexivity | eauto]).
    + destruct (env_now e s2) as [t' s3]; simpl.
      destruct (env_write e (Logger w) p s3) as [r s4]; simpl.
      split; [split; reflexivity |]. split; [intros; lia |]. intros _.
      split; (split; [reflexivity | eauto 6]).
  - rewrite Z.geb_leb in Hdue. apply Z.leb_gt in Hdue.
    destruct (env_write e (Logger w) p s1) as [r s2]; simpl.
    split; [split; reflexivity |]. split; [intros; split; reflexivity |].
    intros; lia.
Qed.

(** One hour after the last rotation, with an interval of one hour. *)
Lemma Write_interval_gating_witness :
  (0 < rotationTime (sample_writer hour) /\
   int64 (rotationTime (sample_writer hour)) /\
   int64 (lastRotation (sample_writer hour)) /\
   int64 (fst (env_now calm hour))) /\
  rotations (trace (run calm (Write (sample_writer hour) [x61%byte]) hour)) = 1%nat /\
  rotations (trace (run calm (Write (sample_writer hour) [x61%byte]) (hour - 1))) = 0%nat.
Proof.
  assert (H0 : 0 < rotationTime (sample_writer hour)) by reflexivity.
  assert (H1 : int64 (rotationTime (sample_writer hour)))
    by (vm_compute; split; discriminate).
  assert (H2 : int64 (lastRotation (sample_writer hour)))
    by (vm_compute; split; discriminate).
  assert (H3 : int64 (fst (env_now calm hour)))
    by (vm_compute; split; discriminate).
  assert (H4 : int64 (fst (env_now calm (hour - 1))))
    by (vm_compute; split; discriminate).
  split; [auto |]. split.
  - destruct (Write_interval_gating Z calm hour (sample_writer hour) [x61%byte]
                H0 H1 H2 H3) as (_ & _ & Hdue).
    destruct Hdue as [[Hone _] _]; [vm_compute; discriminate | exact Hone].
  - destruct (Write_interval_gating Z calm (hour - 1) (sample_writer hour) [x61%byte]
                H0 H1 H2 H4) as (_ & Hnot & _).
    destruct Hnot as [Hnone _]; [vm_compute; reflexivity | exact Hnone].
Defined.


(** A call past the interval rotates, whatever the environment. *)
Lemma Write_rotates_when_due {St : Type} (e : Env St) (s : St)
    (w : TimeRotatingWriter) (p : list byte) :
  0 < rotationTime w ->
  int64 (rotationTime w) -> int64 (lastRotation w) -> int64 (fst (env_now e s)) ->
  fst (env_now e s) - lastRotation w >= rotationTime w ->
  rotations (trace (run e (Write w p) s)) = 1%nat.
Proof.
  intros Hpos Hd Hu Ht Hge.
  pose proof (since_due _ _ _ Ht Hu Hd Hpos) as Hsince.
  assert (Hdue : (subMono (fst (env_now e s)) (lastRotation w) >=? rotationTime w) = true)
    by (rewrite Hsince; apply Z.geb_le; lia).
  destruct (env_now e s) as [t s1] eqn:Hnow. simpl in Hdue.
  destruct (env_rotate e (Logger w) s1) as [[err |] s2] eqn:Hrot.
  - rewrite (Write_rotate_failed e s w p t s1 s2 err Hpos Hnow Hdue Hrot).
    destruct (env_write e (Logger w) p s2) as [[n werr] s3]. reflexivity.
  - rewrite (Write_rotated e s w p t s1 s2 Hpos Hnow Hdue Hrot).
    destruct (env_now e s2) as [t' s3].
    destruct (env_write e (Logger w) p s3) as [r s4]. reflexivity.
Qed.

Lemma string_app_assoc (x y z : string) :
  ((x ++ y) ++ z = x ++ (y ++ z))%string.
Proof. induction x as [| c x IH]; simpl; [reflexivity | rewrite IH; reflexivity]. Qed.

Lemma string_app_nil_r (x : string) : (x ++ "")%string = x.
Proof. induction x as [| c x IH]; simpl; [reflexivity | rewrite IH; reflexivity]. Qed.

Lemma contains_intro (pre needle post : string) :
  contains (pre ++ needle ++ post) needle.
Proof. exists pre, post. reflexivity. Qed.

Lemma contains_suffix (pre needle : string) : contains (pre ++ needle) needle.
Proof. exists pre, EmptyString. rewrite string_app_nil_r. reflexivity. Qed.

(** Membership in a trace that is written out. *)
Ltac in_trace :=
  repeat match goal with
    | H : False |- _ => contradiction
    | H : _ \/ _ |- _ => destruct H
    | H : @eq Event _ _ |- _ =>
        first [discriminate H | inversion H; subst; clear H]
    | H : In _ (_ :: _) |- _ => simpl in H
    | H : In _ [] |- _ => simpl in H
    | H : In _ _ |- _ => progress simpl in H
    end.

(** ** Failed rotations *)

(** C2.  When a [Write] has seen the sink's rotate fail with [err] and
    the write that followed succeed with [n] bytes, it returns [n] with an
    error whose text carries the text of [err], and leaves the writer as
    it was, [lastRotation] included; so the next [Write] whose clock
    reading is past the interval calls rotate again.  (The first revision
    leaves the writer unchanged on a failed rotation too, but returns
    before any write.) *)
Theorem Write_rotation_failure_keeps_write :
  forall (St : Type) (e : Env St) (s : St) (w : TimeRotatingWriter)
         (p : list byte) (err : error) (n : Z),
    In (ERotate (Logger w) (Some err)) (trace (run e (Write w p) s)) ->
    In (EWrite (Logger w) p (n, None)) (trace (run e (Write w p) s)) ->
    (exists rotErr : error,
        result (run e (Write w p) s) = (w, (n, Some rotErr)) /\
        contains (Error rotErr) (Error err)) /\
    lastRotation (fst (result (run e (Write w p) s))) = lastRotation w /\
    (forall (St' : Type) (e' : Env St') (s' : St') (p' : list byte),
        int64 (rotationTime w) -> int64 (lastRotation w) ->
        int64 (fst (env_now e' s')) ->
        fst (env_now e' s') - lastRotation w >= rotationTime w ->
        rotations (trace (run e' (Write (fst (result (run e (Write w p) s))) p') s')) = 1%nat) /\
    (forall err' : error,
        In (ERotate (Logger w) (Some err')) (trace (run e (V1.Write w p) s)) ->
        fst (result (run e (V1.Write w p) s)) = w /\
        sink_calls (trace (run e (V1.Write w p) s)) = [ERotate (Logger w) (Some err')]).
Proof.
  intros St e s w p err n Hrot Hwr.
  assert (Hpos : 0 < rotationTime w).
  { destruct (Z_lt_le_dec 0 (rotationTime w)) as [H | H]; [exact H |].
    exfalso. revert Hrot. rewrite (Write_disabled e s w p H).
    destruct (env_write e (Logger w) p s) as [r s1]. simpl. intros; in_trace. }
  assert (Hres : result (run e (Write w p) s) = (w, (n, Some (Errorf_rotate err)))).
  { revert Hrot Hwr. paths; intros; in_trace; reflexivity. }
  split; [| split; [| split]].
  - exists (Errorf_rotate err). split; [exact Hres |]. apply contains_suffix.
  - rewrite Hres. reflexivity.
  - intros St' e' s' p' Hd Hu Ht Hge. rewrite Hres. simpl.
    apply Write_rotates_when_due; assumption.
  - intros err'. clear. paths; intros; in_trace; split; reflexivity.
Qed.

(** The sink cannot rotate (disk full) but still takes the byte. *)
Lemma Write_rotation_failure_keeps_write_witness :
  (In (ERotate (Logger (sample_writer hour)) (Some disk_full))
      (trace (run stuck (Write (sample_writer hour) [x61%byte]) hour)) /\
   In (EWrite (Logger (sample_writer hour)) [x61%byte] (1, None))
      (trace (run stuck (Write (sample_writer hour) [x61%byte]) hour))) /\
  lastRotation (fst (result (run stuck (Write (sample_writer hour) [x61%byte]) hour)))
  = lastRotation (sample_writer hour).
Proof.
  assert (H1 : In (ERotate (Logger (sample_writer hour)) (Some disk_full))
                 (trace (run stuck (Write (sample_writer hour) [x61%byte]) hour)))
    by (vm_compute; auto).
  assert (H2 : In (EWrite (Logger (sample_writer hour)) [x61%byte] (1, None))
                 (trace (run stuck (Write (sample_writer hour) [x61%byte]) hour)))
    by (vm_compute; auto 6).
  split; [auto |].
  exact (proj1 (proj2 (Write_rotation_failure_keeps_write Z stuck hour
                         (sample_writer hour) [x61%byte] disk_full 1 H1 H2))).
Defined.


(** C3.  When a [Write] has seen the sink's rotate fail with [err] and
    the write that followed fail with [writeErr], it returns zero bytes
    and one error whose text carries the text of both. *)
Theorem Write_double_fault :
  forall (St : Type) (e : Env St) (s : St) (w : TimeRotatingWriter)
         (p : list byte) (err writeErr : error) (n : Z),
    In (ERotate (Logger w) (Some err)) (trace (run e (Write w p) s)) ->
    In (EWrite (Logger w) p (n, Some writeErr)) (trace (run e (Write w p) s)) ->
    exists combined : error,
      result (run e (Write w p) s) = (w, (0, Some combined)) /\
      contains (Error combined) (Error err) /\
      contains (Error combined) (Error writeErr).
Proof.
  intros St e s w p err writeErr n Hrot Hwr.
  exists (Errorf_write_after_rotate writeErr err).
  split; [| split].
  - revert Hrot Hwr. paths; intros; in_trace; reflexivity.
  - exists ("ошибка записи после ошибки ротации: " ++ Error writeErr
            ++ " (ошибка ротации: ")%string, ")"%string.
    unfold Errorf_write_after_rotate, Error at 1.
    rewrite !string_app_assoc. reflexivity.
  - unfold Errorf_write_after_rotate, Error at 1.
    apply contains_intro.
Qed.

(** The sink can neither rotate (disk full) nor write (permission denied). *)
Lemma Write_double_fault_witness :
  (In (ERotate (Logger (sample_writer hour)) (Some disk_full))
      (trace (run broken (Write (sample_writer hour) [x61%byte]) hour)) /\
   In (EWrite (Logger (sample_writer hour)) [x61%byte] (0, Some permission_denied))
      (trace (run broken (Write (sample_writer hour) [x61%byte]) hour))) /\
  exists combined : error,
    result (run broken (Write (sample_writer hour) [x61%byte]) hour)
    = (sample_writer hour, (0, Some combined)) /\
    contains (Error combined) (Error disk_full) /\
    contains (Error combined) (Error permission_denied).
Proof.
  assert (H1 : In (ERotate (Logger (sample_writer hour)) (Some disk_full))
                 (trace (run broken (Write (sample_writer hour) [x61%byte]) hour)))
    by (vm_compute; auto).
  assert (H2 : In (EWrite (Logger (sample_writer hour)) [x61%byte]
                    (0, Some permission_denied))
                 (trace (run broken (Write (sample_writer hour) [x61%byte]) hour)))
    by (vm_compute; auto 6).
  split; [auto |].
  exact (Write_double_fault Z broken hour (sample_writer hour) [x61%byte]
           disk_full permission_denied 0 H1 H2).
Defined.


(** ** Calls in sequence *)

Lemma run_call_write {St : Type} (e : Env St) (w : TimeRotatingWriter)
    (p : list byte) (s : St) :
  run e (call w (CallWrite p)) s =
  let o := run e (Write w p) s in
  mkOutcome (fst (result o)) (final o) (trace o).
Proof.
  unfold call. rewrite run_bind. simpl. rewrite app_nil_r. reflexivity.
Qed.

Lemma run_call_close {St : Type} (e : Env St) (w : TimeRotatingWriter) (s : St) :
  run e (call w CallClose) s =
  let o := run e (Close w) s in
  mkOutcome w (final o) (trace o).
Proof.
  unfold call. rewrite run_bind. simpl. rewrite app_nil_r. reflexivity.
Qed.

Lemma rotations_app (a b : list Event) :
  rotations (a ++ b) = (rotations a + rotations b)%nat.
Proof. unfold rotations. rewrite filter_app, length_app. reflexivity. Qed.

Lemma clock_reads_app (a b : list Event) :
  clock_reads (a ++ b) = (clock_reads a + clock_reads b)%nat.
Proof. unfold clock_reads. rewrite filter_app, length_app. reflexivity. Qed.

(** ** Time-based rotation switched off *)

(** With an interval of zero or less the second revision of [Write] looks
    at neither the clock nor [lastRotation]: the call does the same
    whatever [lastRotation] holds. *)
Lemma Write_disabled_ignores_lastRotation {St : Type} (e : Env St) (s : St)
    (w : TimeRotatingWriter) (p : list byte) (t : Time) :
  rotationTime w <= 0 ->
  let o := run e (Write w p) s in
  let o' := run e (Write (set_lastRotation w t) p) s in
  trace o' = trace o /\ final o' = final o /\ snd (result o') = snd (result o) /\
  clock_reads (trace o) = 0%nat.
Proof.
  intros H o o'. subst o o'.
  rewrite (Write_disabled e s w p H).
  rewrite (Write_disabled e s (set_lastRotation w t) p H). simpl.
  destruct (env_write e (Logger w) p s) as [r s1]. simpl. auto.
Qed.

(** With an interval of zero or less, no sequence of [Write] and [Close]
    calls on a writer of the second revision reaches the sink's rotate or
    the clock. *)
Lemma disabled_never_rotates {St : Type} (e : Env St) (cs : list Call) :
  forall (w : TimeRotatingWriter) (s : St),
    rotationTime w <= 0 ->
    rotations (lifetime_trace e w s cs) = 0%nat /\
    clock_reads (lifetime_trace e w s cs) = 0%nat.
Proof.
  induction cs as [| c cs IH]; intros w s H; simpl; [split; reflexivity |].
  rewrite rotations_app, clock_reads_app.
  destruct c as [p |].
  - rewrite run_call_write. rewrite (Write_disabled e s w p H).
    destruct (env_write e (Logger w) p s) as [r s1]. simpl.
    destruct (IH w s1 H) as [IHr IHc]. rewrite IHr, IHc. split; reflexivity.
  - rewrite run_call_close. unfold Close, locked, mu_Lock, mu_Unlock, Logger_Close.
    simpl. destruct (env_close e (Logger w) s) as [r s1]. simpl.
    destruct (IH w s1 H) as [IHr IHc]. rewrite IHr, IHc. split; reflexivity.
Qed.

(** C4.  The first revision of [Write] has no test of the sign of the
    interval: with an interval of zero, a first write one hour into the
    life of the writer calls the sink's rotate (and so does every write
    after it), where the second revision goes straight to the write. *)
Theorem V1_Write_rotates_with_interval_zero :
  rotationTime (sample_writer 0) <= 0 /\
  trace (run (calm) (V1.Write (sample_writer 0) [x61%byte]) hour)
  = [ELock; ENow hour; ERotate 1%positive None; ENow (hour + 2);
     EWrite 1%positive [x61%byte] (1, None); EUnlock] /\
  trace (run (calm) (Write (sample_writer 0) [x61%byte]) hour)
  = [ELock; EWrite 1%positive [x61%byte] (1, None); EUnlock].
Proof. split; [discriminate | split; reflexivity]. Qed.

(** ** The rotation timestamp *)

Section Monotone.

Context {St : Type} (e : Env St) (clk : St -> Time).
Hypothesis clock_ok : MonotoneClock e clk.

(** Turn the recorded answers of the environment into facts about time. *)
Ltac time_facts :=
  repeat match goal with
    | H : env_now e ?s = _ |- _ =>
        let F := fresh "F" in
        pose proof (now_between e clk clock_ok s) as F;
        rewrite H in F; simpl in F; clear H
    | H : env_rotate e ?l ?s = _ |- _ =>
        let F := fresh "F" in
        pose proof (rotate_later e clk clock_ok l s) as F;
        rewrite H in F; simpl in F; clear H
    | H : env_write e ?l ?p ?s = _ |- _ =>
        let F := fresh "F" in
        pose proof (write_later e clk clock_ok l p s) as F;
        rewrite H in F; simpl in F; clear H
    | H : env_close e ?l ?s = _ |- _ =>
        let F := fresh "F" in
        pose proof (close_later e clk clock_ok l s) as F;
        rewrite H in F; simpl in F; clear H
    end.

Lemma New_not_in_future (logger : LoggerPtr) (interval : Duration) (s : St) :
  let o := run e (NewTimeRotatingWriter logger interval) s in
  clk s <= lastRotation (result o) <= clk (final o).
Proof.
  unfold NewTimeRotatingWriter, time_Now. simpl.
  answer. time_facts. lia.
Qed.

Lemma Write_advances (w : TimeRotatingWriter) (p : list byte) (s : St) :
  lastRotation w <= clk s ->
  let o := run e (Write w p) s in
  lastRotation w <= lastRotation (fst (result o)) <= clk (final o).
Proof.
  intros Hinv. paths; time_facts; lia.
Qed.

Lemma V1_Write_advances (w : TimeRotatingWriter) (p : list byte) (s : St) :
  lastRotation w <= clk s ->
  let o := run e (V1.Write w p) s in
  lastRotation w <= lastRotation (fst (result o)) <= clk (final o).
Proof.
  intros Hinv. paths; time_facts; lia.
Qed.

Lemma Close_passes_time (w : TimeRotatingWriter) (s : St) :
  clk s <= clk (final (run e (Close w) s)).
Proof.
  unfold Close, locked, mu_Lock, mu_Unlock, Logger_Close. simpl.
  answer. time_facts. lia.
Qed.

Lemma call_advances (w : TimeRotatingWriter) (c : Call) (s : St) :
  lastRotation w <= clk s ->
  let o := run e (call w c) s in
  lastRotation w <= lastRotation (result o) <= clk (final o).
Proof.
  intros Hinv. destruct c as [p |].
  - rewrite run_call_write. simpl. apply Write_advances. exact Hinv.
  - pose proof (Close_passes_time w s) as H. rewrite run_call_close. simpl in *. lia.
Qed.

Lemma lifetime_advances (cs : list Call) :
  forall (w : TimeRotatingWriter) (s : St),
    lastRotation w <= clk s ->
    Forall (fun ws => lastRotation w <= lastRotation (fst ws) <= clk (snd ws))
           (lifetime e w s cs) /\
    StronglySorted Z.le (map (fun ws => lastRotation (fst ws)) (lifetime e w s cs)).
Proof.
  induction cs as [| c cs IH]; intros w s Hinv; simpl.
  - split; constructor.
  - pose proof (call_advances w c s Hinv) as Hstep. simpl in Hstep.
    destruct (IH (result (run e (call w c) s)) (final (run e (call w c) s)))
      as [Hall Hsorted]; [lia |].
    split.
    + constructor; [simpl; lia |].
      eapply Forall_impl; [| exact Hall]. simpl. intros ws Hws. lia.
    + constructor; [exact Hsorted |].
      rewrite Forall_map. eapply Forall_impl; [| exact Hall].
      simpl. intros ws Hws. lia.
Qed.

End Monotone.

(** C5.  Under a clock that does not run backwards: a [Write] leaves
    [lastRotation] at or above its previous value and at or below the
    time at which the call ends; and over the life of a writer, from its
    construction through any sequence of [Write] and [Close] calls, the
    values of [lastRotation] never decrease and none lies in the future
    of the moment at which it is observed. *)
Theorem lastRotation_monotone_not_in_future :
  forall (St : Type) (e : Env St) (clk : St -> Time),
    MonotoneClock e clk ->
    (forall (w : TimeRotatingWriter) (p : list byte) (s : St),
        lastRotation w <= clk s ->
        lastRotation w <= lastRotation (fst (result (run e (Write w p) s)))
        /\ lastRotation (fst (result (run e (Write w p) s)))
           <= clk (final (run e (Write w p) s))) /\
    (forall (logger : LoggerPtr) (interval : Duration) (s : St) (cs : list Call),
        Forall (fun ws => lastRotation (fst ws) <= clk (snd ws))
               (history e logger interval s cs) /\
        StronglySorted Z.le
          (map (fun ws => lastRotation (fst ws)) (history e logger interval s cs))).
Proof.
  intros St e clk Hclk. split.
  - intros w p s Hinv. pose proof (Write_advances e clk Hclk w p s Hinv) as H.
    cbv zeta in H. lia.
  - intros logger interval s cs. unfold history.
    pose proof (New_not_in_future e clk Hclk logger interval s) as Hnew.
    cbv zeta in Hnew.
    set (o := run e (NewTimeRotatingWriter logger interval) s) in *.
    destruct (lifetime_advances e clk Hclk cs (result o) (final o))
      as [Hall Hsorted]; [lia |].
    cbv zeta. split.
    + constructor; [cbn [fst snd]; lia |].
      eapply Forall_impl; [| exact Hall]. cbv beta. intros ws Hws. lia.
    + rewrite map_cons. constructor; [exact Hsorted |].
      rewrite Forall_map. eapply Forall_impl; [| exact Hall].
      cbv beta. cbn [fst]. intros ws Hws. lia.
Qed.

Lemma steady_monotone (dt : Z) (rot : option error)
    (wr : list byte -> Z * option error) (cl : option error) :
  0 <= dt -> MonotoneClock (steady dt rot wr cl) (fun s => s).
Proof. intros H. constructor; intros; simpl; lia. Defined.

(** A writer with an interval of two ticks, written to three times and
    then closed, in a world where every call takes one tick. *)
Lemma lastRotation_monotone_not_in_future_witness :
  MonotoneClock calm (fun s => s) /\
  StronglySorted Z.le
    (map (fun ws => lastRotation (fst ws))
         (history calm 1%positive 2 0
            [CallWrite [x61%byte]; CallWrite [x62%byte]; CallWrite [x63%byte]; CallClose])).
Proof.
  assert (H : MonotoneClock calm (fun s => s))
    by (apply steady_monotone; discriminate).
  split; [exact H |].
  exact (proj2 (proj2 (lastRotation_monotone_not_in_future Z calm (fun s => s) H)
                  1%positive 2 0
                  [CallWrite [x61%byte]; CallWrite [x62%byte]; CallWrite [x63%byte];
                   CallClose])).
Defined.


(** ** Construction and closing *)

(** C7.  [Close] returns what the sink's close returned, the very value,
    and does nothing else than take the lock, call the sink's close once
    and release the lock. *)
Theorem Close_delegates :
  forall (St : Type) (e : Env St) (s : St) (w : TimeRotatingWriter),
    result (run e (Close w) s) = fst (env_close e (Logger w) s) /\
    final (run e (Close w) s) = snd (env_close e (Logger w) s) /\
    trace (run e (Close w) s)
    = [ELock; EClose (Logger w) (fst (env_close e (Logger w) s)); EUnlock].
Proof.
  intros St e s w. unfold Close, locked, mu_Lock, mu_Unlock, Logger_Close. simpl.
  destruct (env_close e (Logger w) s) as [r s1]. simpl. auto.
Qed.

(** C8.  For every sink and every interval, also zero and negative ones,
    [NewTimeRotatingWriter] returns a writer (there is no error result):
    it holds the sink and the interval given and has [lastRotation] set to
    the one clock reading taken during construction; nothing else
    happens. *)
Theorem NewTimeRotatingWriter_initial_state :
  forall (St : Type) (e : Env St) (s : St) (logger : LoggerPtr) (interval : Duration),
    result (run e (NewTimeRotatingWriter logger interval) s)
    = {| Logger := logger; rotationTime := interval;
         lastRotation := fst (env_now e s) |} /\
    trace (run e (NewTimeRotatingWriter logger interval) s) = [ENow (fst (env_now e s))].
Proof.
  intros St e s logger interval. unfold NewTimeRotatingWriter, time_Now. simpl.
  destruct (env_now e s) as [t s1]. simpl. auto.
Qed.

(** ** The two revisions of [Write] *)

(** C9, as stated, fails: with an interval of zero the first revision
    rotates where the second does not, and on a failed rotation the first
    returns [(0, err)] without writing where the second writes and
    returns the bytes written with a new error. *)
Lemma revisions_differ :
  ~ same_behaviour (calm) hour (sample_writer 0) [x61%byte] /\
  ~ same_behaviour (stuck) hour
      (sample_writer hour) [x61%byte].
Proof.
  split; intros [Hres Hcalls]; vm_compute in Hcalls; discriminate Hcalls.
Qed.

(** C9, amended.  With an interval above zero, on every call in which the
    sink's rotate does not fail, the two revisions do the same: the same
    results, the same writer left behind, the same calls in the same
    order, the same final state of the world. *)
Theorem revisions_agree_without_rotation_failure :
  forall (St : Type) (e : Env St) (s : St) (w : TimeRotatingWriter) (p : list byte),
    0 < rotationTime w ->
    (forall (l : LoggerPtr) (err : error),
        ~ In (ERotate l (Some err)) (trace (run e (Write w p) s))) ->
    run e (V1.Write w p) s = run e (Write w p) s /\
    same_behaviour e s w p.
Proof.
  intros St e s w p Hpos Hok.
  assert (Heq : run e (V1.Write w p) s = run e (Write w p) s).
  { assert (Hgt : (rotationTime w >? 0) = true) by (apply Z.gtb_lt; lia).
    revert Hok. unfold_write. rewrite Hgt. simpl.
    destruct (env_now e s) as [t s1]. simpl.
    destruct (subMono t (lastRotation w) >=? rotationTime w); simpl;
      [| reflexivity].
    destruct (env_rotate e (Logger w) s1) as [[err |] s2]; simpl;
      [| reflexivity].
    destruct (env_write e (Logger w) p s2) as [[n [werr |]] s3]; simpl;
      intros Hok; exfalso; apply (Hok (Logger w) err); simpl; auto. }
  split; [exact Heq |]. unfold same_behaviour. rewrite Heq. split; reflexivity.
Qed.

(** A rotation that is due and succeeds. *)
Lemma revisions_agree_without_rotation_failure_witness :
  (0 < rotationTime (sample_writer hour) /\
   forall (l : LoggerPtr) (err : error),
     ~ In (ERotate l (Some err))
          (trace (run calm (Write (sample_writer hour) [x61%byte]) hour))) /\
  run calm (V1.Write (sample_writer hour) [x61%byte]) hour
  = run calm (Write (sample_writer hour) [x61%byte]) hour.
Proof.
  assert (H0 : 0 < rotationTime (sample_writer hour)) by reflexivity.
  assert (H1 : forall (l : LoggerPtr) (err : error),
             ~ In (ERotate l (Some err))
                  (trace (run calm (Write (sample_writer hour) [x61%byte]) hour))).
  { intros l err Hin. vm_compute in Hin.
    repeat (destruct Hin as [Hin | Hin]; [discriminate Hin |]). exact Hin. }
  split; [auto |].
  exact (proj1 (revisions_agree_without_rotation_failure Z calm hour
                  (sample_writer hour) [x61%byte] H0 H1)).
Defined.


(** ** What [Write] leaves alone *)

(** C10.  On every way out of [Write], in both revisions, the writer left
    behind has the interval and the sink it had; it is the writer as it
    was, or the writer with [lastRotation] set to a clock reading taken
    after a call of the sink's rotate that succeeded. *)
Theorem Write_frame :
  forall (St : Type) (e : Env St) (s : St) (w : TimeRotatingWriter) (p : list byte),
    only_lastRotation_changed w (run e (Write w p) s) /\
    only_lastRotation_changed w (run e (V1.Write w p) s).
Proof.
  intros St e s w p. unfold only_lastRotation_changed.
  split; paths; (split; [reflexivity | split; [reflexivity |]]);
    try (left; reflexivity);
    right; eexists; eexists [ELock; ENow _]; eexists;
    (split; [reflexivity | reflexivity]).
Qed.

(** ** The lock *)

(** Within one call, everything [Write] and [Close] ask of the clock and
    of the sink lies between taking the lock and releasing it, and the
    lock is released on every way out. *)
Lemma calls_hold_the_lock {St : Type} (e : Env St) (s : St)
    (w : TimeRotatingWriter) (c : Call) :
  exists inside : list Event,
    trace (run e (call w c) s) = ELock :: inside ++ [EUnlock] /\
    filter is_lock_event inside = [].
Proof.
  destruct c as [p |].
  - rewrite run_call_write. cbv zeta. cbn [trace].
    paths;
      match goal with
      | |- exists _, ELock :: ?l = _ /\ _ =>
          exists (removelast l); split; reflexivity
      end.
  - rewrite run_call_close. cbv zeta. cbn [trace].
    unfold Close, locked, mu_Lock, mu_Unlock, Logger_Close. simpl.
    destruct (env_close e (Logger w) s) as [r s1]. simpl.
    exists [EClose (Logger w) r]. split; reflexivity.
Qed.

(** * Further properties of the writer *)

(** X1.  The second revision of [Write] hands the caller's bytes to the
    sink exactly once on every call, whatever the clock and the sink do,
    and to no other sink than its own; when no rotation failed, what it
    returns is what that write returned. *)
Theorem Write_writes_exactly_once :
  forall (St : Type) (e : Env St) (s : St) (w : TimeRotatingWriter) (p : list byte),
    exists r : Z * option error,
      filter is_write (trace (run e (Write w p) s)) = [EWrite (Logger w) p r] /\
      ((forall err, ~ In (ERotate (Logger w) (Some err)) (trace (run e (Write w p) s))) ->
       snd (result (run e (Write w p) s)) = r).
Proof.
  intros St e s w p.
  paths; eexists; (split; [reflexivity |]); intros Hok; try reflexivity;
    exfalso; eapply Hok; simpl; eauto.
Qed.

(** X2.  No error of the sink is swallowed, in either revision: [Write]
    returns a nil error exactly when every call it made to the sink
    returned a nil error. *)
Theorem Write_error_nil_iff_sink_clean :
  forall (St : Type) (e : Env St) (s : St) (w : TimeRotatingWriter) (p : list byte),
    (snd (snd (result (run e (Write w p) s))) = None <->
     existsb sink_failed (trace (run e (Write w p) s)) = false) /\
    (snd (snd (result (run e (V1.Write w p) s))) = None <->
     existsb sink_failed (trace (run e (V1.Write w p) s)) = false).
Proof.
  intros St e s w p.
  split; paths; split; intros H; try reflexivity; try discriminate H.
Qed.



(** * The logging facade *)

(** ** Contexts *)

Lemma traceIDKey_is_not_opKey :
  logit.any_eqb logit.traceIDKey logit.opKey = false /\
  logit.any_eqb logit.opKey logit.traceIDKey = false /\
  logit.any_eqb logit.opKey logit.opKey = true /\
  logit.any_eqb logit.traceIDKey logit.traceIDKey = true.
Proof. repeat split; reflexivity. Qed.

Ltac keys :=
  unfold logit.getOpFromContext, logit.getTraceIDFromContext, logit.NewCtx,
    logit.NewOpCtx, logit.NewTraceCtx, logit.NewTraceContext,
    logit.context_WithValue, logit.orBackground, logit.uuid_New_String;
  cbn [logit.Value logit.act_bind logit.perform logit.as_string
       logit.ending logit.effects logit.world_final logit.record];
  repeat match goal with
    | |- context [logit.any_eqb logit.traceIDKey logit.opKey] =>
        change (logit.any_eqb logit.traceIDKey logit.opKey) with false
    | |- context [logit.any_eqb logit.opKey logit.traceIDKey] =>
        change (logit.any_eqb logit.opKey logit.traceIDKey) with false
    | |- context [logit.any_eqb logit.opKey logit.opKey] =>
        change (logit.any_eqb logit.opKey logit.opKey) with true
    | |- context [logit.any_eqb logit.traceIDKey logit.traceIDKey] =>
        change (logit.any_eqb logit.traceIDKey logit.traceIDKey) with true
    end;
  cbn [logit.Value logit.act_bind logit.perform logit.as_string
       logit.ending logit.effects logit.world_final logit.record].

(** X4.  [NewCtx] never fails, a nil context included, and what it
    stores reads back: the operation is the one given, and the trace id
    is read back without a new uuid; a trace id that was passed in is the
    one stored and no uuid is drawn for it. *)
Theorem NewCtx_reads_back :
  forall (St : Type) (w : logit.World St) (s : St) (l : logit.logIt)
         (ctx : option logit.Context) (op : string) (traceID : option string),
    exists (c : logit.Context) (t : string),
      logit.ending (logit.perform w (logit.NewCtx l ctx op traceID) s)
      = logit.Returned c /\
      logit.getOpFromContext l (Some c) = op /\
      logit.getTraceIDFromContext l (Some c) = logit.Done t /\
      match traceID with
      | Some given =>
          t = given /\
          logit.effects (logit.perform w (logit.NewCtx l ctx op traceID) s) = []
      | None => True
      end.
Proof.
  intros St w s l ctx op traceID.
  destruct traceID as [given |].
  - exists (logit.context_WithValue
              (logit.context_WithValue (logit.orBackground ctx) logit.opKey
                 (logit.any_string op))
              logit.traceIDKey (logit.any_string given)), given.
    keys. auto.
  - unfold logit.NewCtx.
    destruct (logit.as_string (logit.Value (logit.orBackground ctx) logit.traceIDKey))
      as [existing |].
    + destruct (negb (existing =? "")%string).
      * eexists; exists existing. keys. auto.
      * keys. destruct (logit.world_uuid w s) as [u s1].
        eexists; exists u. keys. auto.
    + keys. destruct (logit.world_uuid w s) as [u s1].
      eexists; exists u. keys. auto.
Qed.

(** X5.  A context that already carries a non-empty trace id keeps it
    through [NewCtx] called without one, and no uuid is drawn; [NewTraceCtx]
    called without one replaces it by a new uuid all the same. *)
Theorem NewCtx_inherits_trace_id :
  forall (St : Type) (w : logit.World St) (s : St) (l : logit.logIt)
         (c : logit.Context) (op existing : string),
    logit.as_string (logit.Value c logit.traceIDKey) = Some existing ->
    existing <> ""%string ->
    (exists c' : logit.Context,
        logit.perform w (logit.NewCtx l (Some c) op None) s
        = logit.mkActOutcome (logit.Returned c') s [] /\
        logit.getTraceIDFromContext l (Some c') = logit.Done existing) /\
    (exists c' : logit.Context,
        logit.perform w (logit.NewTraceCtx l (Some c) None) s
        = logit.mkActOutcome (logit.Returned c') (snd (logit.world_uuid w s))
            [logit.FxUuid (fst (logit.world_uuid w s))] /\
        logit.getTraceIDFromContext l (Some c')
        = logit.Done (fst (logit.world_uuid w s))).
Proof.
  intros St w s l c op existing Hhas Hne.
  assert (Hneq : (existing =? "")%string = false) by (apply String.eqb_neq; exact Hne).
  split.
  - unfold logit.NewCtx, logit.orBackground. rewrite Hhas, Hneq.
    eexists. keys. split; reflexivity.
  - keys. destruct (logit.world_uuid w s) as [u s1].
    eexists. keys. split; reflexivity.
Qed.

Lemma NewCtx_inherits_trace_id_witness :
  (logit.as_string
     (logit.Value [(logit.traceIDKey, logit.any_string "req-1")] logit.traceIDKey)
   = Some "req-1"%string /\ "req-1"%string <> ""%string) /\
  exists c' : logit.Context,
    logit.perform logit.office
      (logit.NewCtx logit.nop (Some [(logit.traceIDKey, logit.any_string "req-1")])
         "main" None) 0%nat
    = logit.mkActOutcome (logit.Returned c') 0%nat [] /\
    logit.getTraceIDFromContext logit.nop (Some c') = logit.Done "req-1"%string.
Proof.
  assert (H1 : logit.as_string
                 (logit.Value [(logit.traceIDKey, logit.any_string "req-1")]
                    logit.traceIDKey) = Some "req-1"%string) by reflexivity.
  assert (H2 : "req-1"%string <> ""%string) by discriminate.
  split; [auto |].
  exact (proj1 (NewCtx_inherits_trace_id nat logit.office 0%nat logit.nop
                  [(logit.traceIDKey, logit.any_string "req-1")]
                  "main" "req-1" H1 H2)).
Defined.

(** X6.  A context whose trace id is the empty string is logged with the
    empty id, while [NewCtx] called without an id treats it as having
    none and draws a uuid. *)
Theorem empty_trace_id_is_read_but_not_inherited :
  forall (St : Type) (w : logit.World St) (s : St) (l : logit.logIt)
         (c : logit.Context) (op : string),
    logit.as_string (logit.Value c logit.traceIDKey) = Some ""%string ->
    logit.getTraceIDFromContext l (Some c) = logit.Done ""%string /\
    exists c' : logit.Context,
      logit.perform w (logit.NewCtx l (Some c) op None) s
      = logit.mkActOutcome (logit.Returned c') (snd (logit.world_uuid w s))
          [logit.FxUuid (fst (logit.world_uuid w s))] /\
      logit.getTraceIDFromContext l (Some c')
      = logit.Done (fst (logit.world_uuid w s)).
Proof.
  intros St w s l c op Hhas. split.
  - unfold logit.getTraceIDFromContext. rewrite Hhas. reflexivity.
  - unfold logit.NewCtx, logit.orBackground. rewrite Hhas. simpl.
    destruct (logit.world_uuid w s) as [u s1].
    eexists. keys. split; reflexivity.
Qed.

Lemma empty_trace_id_is_read_but_not_inherited_witness :
  logit.as_string
    (logit.Value [(logit.traceIDKey, logit.any_string "")] logit.traceIDKey)
  = Some ""%string /\
  logit.getTraceIDFromContext logit.nop
    (Some [(logit.traceIDKey, logit.any_string "")]) = logit.Done ""%string.
Proof.
  assert (H1 : logit.as_string
                 (logit.Value [(logit.traceIDKey, logit.any_string "")]
                    logit.traceIDKey) = Some ""%string) by reflexivity.
  split; [exact H1 |].
  exact (proj1 (empty_trace_id_is_read_but_not_inherited nat logit.office 0%nat
                  logit.nop [(logit.traceIDKey, logit.any_string "")] "main" H1)).
Defined.

(** X7.  The two values do not disturb each other: [NewOpCtx] leaves the
    trace id of a context as it was, [NewTraceCtx] leaves its operation
    as it was; and a context made from a nil one by [NewTraceCtx] or
    [NewTraceContext] has no operation, which reads as [unknown_op]. *)
Theorem op_and_trace_id_are_independent :
  forall (St : Type) (w : logit.World St) (s : St) (l : logit.logIt)
         (c : logit.Context) (op : string) (traceID : option string),
    logit.getTraceIDFromContext l (Some (logit.NewOpCtx l (Some c) op))
    = logit.getTraceIDFromContext l (Some c) /\
    (exists c' : logit.Context,
        logit.ending (logit.perform w (logit.NewTraceCtx l (Some c) traceID) s)
        = logit.Returned c' /\
        logit.getOpFromContext l (Some c') = logit.getOpFromContext l (Some c)) /\
    (exists c' : logit.Context,
        logit.ending (logit.perform w (logit.NewTraceCtx l None traceID) s)
        = logit.Returned c' /\
        logit.getOpFromContext l (Some c') = "unknown_op"%string) /\
    (exists c' : logit.Context,
        logit.ending (logit.perform w (logit.NewTraceContext l traceID) s)
        = logit.Returned c' /\
        logit.getOpFromContext l (Some c') = "unknown_op"%string).
Proof.
  intros St w s l c op traceID.
  split; [keys; reflexivity |].
  split; [| split]; destruct traceID as [t |]; keys;
    try (destruct (logit.world_uuid w s) as [u s1]);
    eexists; keys; split; reflexivity.
Qed.

(** X8.  Only the package's own keys count: a value stored under a key of
    another type, the plain strings ["op"] and ["traceId"] of the first
    revision included, is seen by neither getter. *)
Theorem foreign_keys_are_not_read :
  forall (l : logit.logIt) (c : logit.Context) (name type repr : string)
         (v : logit.any),
    logit.getOpFromContext l
      (Some (logit.context_WithValue c (logit.any_string name) v))
    = logit.getOpFromContext l (Some c) /\
    logit.getTraceIDFromContext l
      (Some (logit.context_WithValue c (logit.any_string name) v))
    = logit.getTraceIDFromContext l (Some c) /\
    logit.getOpFromContext l
      (Some (logit.context_WithValue c (logit.any_other type repr) v))
    = logit.getOpFromContext l (Some c) /\
    logit.getTraceIDFromContext l
      (Some (logit.context_WithValue c (logit.any_other type repr) v))
    = logit.getTraceIDFromContext l (Some c).
Proof.
  intros l c name type repr v. repeat split; reflexivity.
Qed.

(** ** Logging *)

Ltac methods :=
  unfold logit.log, logit.Debug, logit.Info, logit.Infof, logit.Warn,
    logit.Warnf, logit.logIt_Error, logit.Errorf, logit.Fatal, logit.Fatalf,
    logit.logger_call, logit.sentry_CaptureException.

(** The trace id of a context is there or is not. *)
Lemma getTraceIDFromContext_cases (l : logit.logIt) (ctx : option logit.Context) :
  (exists t : string, logit.getTraceIDFromContext l ctx = logit.Done t) \/
  logit.getTraceIDFromContext l ctx = logit.uuid_New_String.
Proof.
  destruct ctx as [c |]; [| right; reflexivity].
  unfold logit.getTraceIDFromContext.
  destruct (logit.as_string (logit.Value c logit.traceIDKey)) as [t |];
    [left; exists t; reflexivity | right; reflexivity].
Qed.

(** X9.  Every logging method, called with anything but a nil error,
    makes exactly one call of the zap logger of the facade, whose fields
    start with [op] and [traceId] and end with the fields the caller
    passed; it then returns, except [Fatal] and [Fatalf], which end the
    process.  The operation is the one of the context; the trace id is
    the one of the context, or, when the context has none, a uuid drawn
    for this one record. *)
Theorem log_attaches_context :
  forall (St : Type) (w : logit.World St) (s : St)
         (Sprintf : string -> list logit.any -> string) (l : logit.logIt)
         (ctx : option logit.Context) (c : logit.LogCall),
    logit.nil_error c = false ->
    exists (m : logit.ZapMethod) (msg t : string) (own : list logit.Field),
      logit.ending (logit.perform w (logit.log Sprintf l ctx c) s)
      = (if logit.fatal c then logit.Exited 1 else logit.Returned tt) /\
      filter logit.is_zap (logit.effects (logit.perform w (logit.log Sprintf l ctx c) s))
      = [logit.FxZap (logit.logger l) m msg
           (logit.zap_String "op" (logit.getOpFromContext l ctx)
            :: logit.zap_String "traceId" t :: own ++ logit.passed_fields c)] /\
      ((logit.getTraceIDFromContext l ctx = logit.Done t /\
        filter logit.is_uuid
          (logit.effects (logit.perform w (logit.log Sprintf l ctx c) s)) = []) \/
       (logit.getTraceIDFromContext l ctx = logit.uuid_New_String /\
        t = fst (logit.world_uuid w s) /\
        filter logit.is_uuid
          (logit.effects (logit.perform w (logit.log Sprintf l ctx c) s))
        = [logit.FxUuid t])).
Proof.
  intros St w s Sprintf l ctx c Hnil.
  destruct (getTraceIDFromContext_cases l ctx) as [[t Ht] | Ht].
  - destruct c as [msg f | msg f | msg a | msg f | msg a | [e |] f | fmt a
                  | [e |] f | fmt a];
      try discriminate Hnil; methods; rewrite Ht; simpl;
      do 2 eexists; exists t;
      first [ exists []; split; [reflexivity |]; split; [reflexivity |];
              left; split; reflexivity
            | eexists [_]; split; [reflexivity |]; split; [reflexivity |];
              left; split; reflexivity
            | exists []; split; [reflexivity |];
              split; [rewrite app_nil_r; reflexivity |];
              left; split; reflexivity
            | eexists [_]; split; [reflexivity |];
              split; [rewrite app_nil_r; reflexivity |];
              left; split; reflexivity ].
  - destruct c as [msg f | msg f | msg a | msg f | msg a | [e |] f | fmt a
                  | [e |] f | fmt a];
      try discriminate Hnil; methods; rewrite Ht;
      unfold logit.uuid_New_String; simpl;
      destruct (logit.world_uuid w s) as [u s1]; simpl;
      do 2 eexists; exists u;
      first [ exists []; split; [reflexivity |]; split; [reflexivity |];
              right; repeat split; reflexivity
            | eexists [_]; split; [reflexivity |]; split; [reflexivity |];
              right; repeat split; reflexivity
            | exists []; split; [reflexivity |];
              split; [rewrite app_nil_r; reflexivity |];
              right; repeat split; reflexivity
            | eexists [_]; split; [reflexivity |];
              split; [rewrite app_nil_r; reflexivity |];
              right; repeat split; reflexivity ].
Qed.

Lemma log_attaches_context_witness :
  logit.nil_error (logit.CallInfo "started" []) = false /\
  exists (m : logit.ZapMethod) (msg t : string) (own : list logit.Field),
    logit.ending
      (logit.perform logit.office
         (logit.log (fun f _ => f) logit.nop None (logit.CallInfo "started" [])) 0%nat)
    = logit.Returned tt /\
    filter logit.is_zap
      (logit.effects
         (logit.perform logit.office
            (logit.log (fun f _ => f) logit.nop None (logit.CallInfo "started" []))
            0%nat))
    = [logit.FxZap (logit.logger logit.nop) m msg
         (logit.zap_String "op" (logit.getOpFromContext logit.nop None)
          :: logit.zap_String "traceId" t
          :: own ++ logit.passed_fields (logit.CallInfo "started" []))].
Proof.
  assert (H : logit.nil_error (logit.CallInfo "started" []) = false) by reflexivity.
  split; [exact H |].
  destruct (log_attaches_context nat logit.office 0%nat (fun f _ => f) logit.nop
              None (logit.CallInfo "started" []) H)
    as (m & msg & t & own & Hend & Hzap & _).
  exists m, msg, t, own. split; [exact Hend | exact Hzap].
Defined.

(** X10.  [Error] and [Fatal] called with a nil error panic on
    [err.Error()]: nothing is logged and nothing reaches Sentry, though a
    uuid has been drawn by then if the context had no trace id. *)
Theorem logging_a_nil_error_panics :
  forall (St : Type) (w : logit.World St) (s : St) (l : logit.logIt)
         (ctx : option logit.Context) (fields : list logit.Field),
    let quiet (o : logit.ActOutcome St unit) :=
      logit.ending o = logit.Panicked logit.nil_dereference /\
      filter logit.is_zap (logit.effects o) = [] /\
      filter logit.is_capture (logit.effects o) = [] in
    quiet (logit.perform w (logit.logIt_Error l ctx None fields) s) /\
    quiet (logit.perform w (logit.Fatal l ctx None fields) s).
Proof.
  intros St w s l ctx fields quiet. subst quiet.
  destruct (getTraceIDFromContext_cases l ctx) as [[t Ht] | Ht];
    methods; rewrite Ht; unfold logit.uuid_New_String; simpl;
    try (destruct (logit.world_uuid w s) as [u s1]; simpl);
    repeat split; reflexivity.
Qed.

(** X11.  Of the nine logging methods only [Error] and [Errorf] report to
    Sentry, [Fatal] and [Fatalf] do not: the error is captured exactly
    once, as the last thing the call does, right after the zap record
    that has its text as message and the error among its fields. *)
Theorem only_Error_and_Errorf_reach_sentry :
  forall (St : Type) (w : logit.World St) (s : St)
         (Sprintf : string -> list logit.any -> string) (l : logit.logIt)
         (ctx : option logit.Context) (c : logit.LogCall),
    match logit.reported Sprintf c with
    | Some e =>
        filter logit.is_capture
          (logit.effects (logit.perform w (logit.log Sprintf l ctx c) s))
        = [logit.FxCapture e] /\
        exists (before : list logit.Effect) (fields : list logit.Field),
          logit.effects (logit.perform w (logit.log Sprintf l ctx c) s)
          = before ++ [logit.FxZap (logit.logger l) logit.zap_Error_ (Error e) fields;
                       logit.FxCapture e] /\
          In (logit.zap_Error e) fields
    | None =>
        filter logit.is_capture
          (logit.effects (logit.perform w (logit.log Sprintf l ctx c) s)) = []
    end.
Proof.
  intros St w s Sprintf l ctx c.
  destruct (getTraceIDFromContext_cases l ctx) as [[t Ht] | Ht];
    destruct c as [msg f | msg f | msg a | msg f | msg a | [e |] f | fmt a
                  | [e |] f | fmt a];
    methods; unfold logit.reported; rewrite Ht;
    unfold logit.uuid_New_String; simpl;
    try (destruct (logit.world_uuid w s) as [u s1]; simpl);
    try reflexivity;
    (split; [reflexivity |]);
    first [ exists []; eexists; split; [reflexivity | simpl; auto]
          | eexists [_]; eexists; split; [reflexivity | simpl; auto] ].
Qed.

(** What [NewCtx] returns. *)
Lemma NewCtx_returns (St : Type) (w : logit.World St) (s : St) (l : logit.logIt)
    (ctx : option logit.Context) (op : string) (traceID : option string)
    (c : logit.Context) :
  logit.ending (logit.perform w (logit.NewCtx l ctx op traceID) s)
  = logit.Returned c ->
  exists t : string,
    c = (logit.traceIDKey, logit.any_string t)
        :: (logit.opKey, logit.any_string op) :: logit.orBackground ctx /\
    match traceID with Some given => t = given | None => True end.
Proof.
  unfold logit.NewCtx. destruct traceID as [given |].
  - keys. intros H. injection H as <-. exists given. split; reflexivity.
  - destruct (logit.as_string (logit.Value (logit.orBackground ctx) logit.traceIDKey))
      as [existing |]; [destruct (negb (existing =? "")%string) |];
      keys; try (destruct (logit.world_uuid w s) as [u s1]); keys;
      intros H; injection H as <-; eexists; split; reflexivity.
Qed.

(** X12.  A context made by [NewCtx] fixes what is logged with it: every
    record of every logging method (called with anything but a nil error,
    at any later time) carries the operation given to [NewCtx] and one
    and the same trace id, the one passed to [NewCtx] if one was passed,
    and logging draws no uuid. *)
Theorem log_with_NewCtx :
  forall (St : Type) (w : logit.World St) (s : St) (l : logit.logIt)
         (ctx : option logit.Context) (op : string) (traceID : option string)
         (c : logit.Context),
    logit.ending (logit.perform w (logit.NewCtx l ctx op traceID) s)
    = logit.Returned c ->
    exists t : string,
      match traceID with Some given => t = given | None => True end /\
      forall (Sprintf : string -> list logit.any -> string) (call : logit.LogCall)
             (s' : St),
        logit.nil_error call = false ->
        exists (m : logit.ZapMethod) (msg : string) (rest : list logit.Field),
          filter logit.is_zap
            (logit.effects (logit.perform w (logit.log Sprintf l (Some c) call) s'))
          = [logit.FxZap (logit.logger l) m msg
               (logit.zap_String "op" op :: logit.zap_String "traceId" t :: rest)] /\
          filter logit.is_uuid
            (logit.effects (logit.perform w (logit.log Sprintf l (Some c) call) s'))
          = [].
Proof.
  intros St w s l ctx op traceID c Hret.
  destruct (NewCtx_returns St w s l ctx op traceID c Hret) as [t [-> Hgiven]].
  exists t. split; [exact Hgiven |].
  intros Sprintf call s' Hnil.
  destruct call as [msg f | msg f | msg a | msg f | msg a | [e |] f | fmt a
                   | [e |] f | fmt a];
    try discriminate Hnil; methods; keys; simpl;
    do 3 eexists; split; reflexivity.
Qed.

Lemma log_with_NewCtx_witness :
  logit.ending
    (logit.perform logit.office
       (logit.NewCtx logit.nop None "main" (Some "req-1"%string)) 0%nat)
  = logit.Returned
      [(logit.traceIDKey, logit.any_string "req-1");
       (logit.opKey, logit.any_string "main")] /\
  exists t : string, t = "req-1"%string.
Proof.
  assert (H : logit.ending
                (logit.perform logit.office
                   (logit.NewCtx logit.nop None "main" (Some "req-1"%string)) 0%nat)
              = logit.Returned
                  [(logit.traceIDKey, logit.any_string "req-1");
                   (logit.opKey, logit.any_string "main")]) by reflexivity.
  split; [exact H |].
  destruct (log_with_NewCtx nat logit.office 0%nat logit.nop None "main"
              (Some "req-1"%string) _ H) as [t [Ht _]].
  exists t. exact Ht.
Defined.

(** ** File names *)

Lemma has_slash_app (a b : string) :
  logit.has_slash (a ++ b) = logit.has_slash a || logit.has_slash b.
Proof.
  unfold logit.has_slash.
  induction a as [| c a IH]; simpl; [reflexivity |].
  rewrite IH. apply orb_assoc.
Qed.

Lemma ReplaceAll_removes_slashes (s : string) :
  logit.has_slash (logit.strings_ReplaceAll s logit.slash "_") = false.
Proof.
  induction s as [| c s IH]; simpl; [reflexivity |].
  destruct (Ascii.eqb c logit.slash) eqn:E.
  - exact IH.
  - unfold logit.has_slash in *. simpl. rewrite E. exact IH.
Qed.

Lemma ReplaceAll_without_slash (s : string) :
  logit.has_slash s = false -> logit.strings_ReplaceAll s logit.slash "_" = s.
Proof.
  unfold logit.has_slash.
  induction s as [| c s IH]; simpl; [reflexivity |].
  intros H. apply orb_false_iff in H. destruct H as [Hc Hs].
  rewrite Hc. rewrite (IH Hs). reflexivity.
Qed.

(** X13.  Whatever the application name and version, the file name has no
    [/] in it as long as the formatted date has none: it names a file,
    never a path into another directory. *)
Theorem fileName_has_no_slash :
  forall (St : Type) (w : logit.World St) (s : St) (appName appVersion : string),
    logit.has_slash (fst (logit.world_format w "2006-01-02" s)) = false ->
    exists name : string,
      logit.ending (logit.perform w (logit.fileName appName appVersion) s)
      = logit.Returned name /\
      logit.has_slash name = false.
Proof.
  intros St w s appName appVersion Hdate.
  unfold logit.fileName. cbn [logit.act_bind logit.perform].
  destruct (logit.world_format w "2006-01-02" s) as [d s1].
  cbn [fst] in Hdate. cbn [logit.perform logit.record logit.ending].
  eexists. split; [reflexivity |].
  rewrite !has_slash_app, !ReplaceAll_removes_slashes, Hdate. reflexivity.
Qed.

Lemma fileName_has_no_slash_witness :
  logit.has_slash (fst (logit.world_format logit.office "2006-01-02" 0%nat)) = false /\
  exists name : string,
    logit.ending (logit.perform logit.office (logit.fileName "billing/api" "v1/rc") 0%nat)
    = logit.Returned name /\
    logit.has_slash name = false.
Proof.
  assert (H : logit.has_slash
                (fst (logit.world_format logit.office "2006-01-02" 0%nat)) = false)
    by reflexivity.
  split; [exact H |].
  exact (fileName_has_no_slash nat logit.office 0%nat "billing/api" "v1/rc" H).
Defined.

(** X14.  For a name and a version without [/] the replacement changes
    nothing: the file name is [name_version_date.log] with both as they
    were given. *)
Theorem fileName_of_plain_names :
  forall (St : Type) (w : logit.World St) (s : St) (appName appVersion : string),
    logit.has_slash appName = false ->
    logit.has_slash appVersion = false ->
    logit.ending (logit.perform w (logit.fileName appName appVersion) s)
    = logit.Returned
        (appName ++ "_" ++ appVersion ++ "_"
         ++ fst (logit.world_format w "2006-01-02" s) ++ ".log")%string.
Proof.
  intros St w s appName appVersion Hn Hv.
  unfold logit.fileName. cbn [logit.act_bind logit.perform].
  rewrite (ReplaceAll_without_slash _ Hn), (ReplaceAll_without_slash _ Hv).
  destruct (logit.world_format w "2006-01-02" s) as [d s1]. reflexivity.
Qed.

Lemma fileName_of_plain_names_witness :
  (logit.has_slash "billing" = false /\ logit.has_slash "1.0.0" = false) /\
  logit.ending (logit.perform logit.office (logit.fileName "billing" "1.0.0") 0%nat)
  = logit.Returned "billing_1.0.0_2025-01-02.log"%string.
Proof.
  assert (H1 : logit.has_slash "billing" = false) by reflexivity.
  assert (H2 : logit.has_slash "1.0.0" = false) by reflexivity.
  split; [auto |].
  exact (fileName_of_plain_names nat logit.office 0%nat "billing" "1.0.0" H1 H2).
Defined.

(** ** Construction of the logger *)

(** Every way through [MustNewLogger], one goal each. *)
Ltac building :=
  unfold logit.MustNewLogger, logit.fileName, NewTimeRotatingWriter, time_Now;
  repeat first
    [ progress simpl
    | match goal with
      | |- context [logit.world_sentry_init ?w ?o ?st] =>
          let E := fresh "Hinit" in
          destruct (logit.world_sentry_init w o st) as [[? |] ?] eqn:E
      | |- context [logit.world_format ?w ?l ?st] =>
          let E := fresh "Hdate" in
          destruct (logit.world_format w l st) as [? ?] eqn:E
      | |- context [logit.world_alloc ?w ?c ?st] =>
          let E := fresh "Halloc" in
          destruct (logit.world_alloc w c st) as [? ?] eqn:E
      | |- context [env_now ?e ?st] =>
          let E := fresh "Hnow" in
          destruct (env_now e st) as [? ?] eqn:E
      | |- context [match ?P ?x with inl _ => _ | inr _ => _ end] =>
          let E := fresh "Hparse" in
          destruct (P x) as [? | ?] eqn:E
      | |- context [match ?x with Some _ => _ | None => _ end] =>
          is_var x; destruct x
      | |- context [if ?b then _ else _] =>
          let E := fresh "Hif" in destruct b eqn:E
      end ].

(** X15.  [MustNewLogger] panics exactly on the configurations it
    refuses: nil parameters or a nil application, logger or environment
    configuration; file output enabled with a rotation time that does not
    parse; neither console nor file output enabled.  Nothing else makes
    it panic, a failing [sentry.Init] included. *)
Theorem MustNewLogger_panics_iff_misconfigured :
  forall (St : Type) (w : logit.World St) (s : St)
         (ParseDuration : string -> Duration + error)
         (Join : string -> string -> string) (params : option logit.Params),
    (exists v : string,
        logit.ending (logit.perform w (logit.MustNewLogger ParseDuration Join params) s)
        = logit.Panicked v) <->
    logit.misconfigured ParseDuration params.
Proof.
  intros St w s ParseDuration Join params.
  destruct params as [[[app |] [lc |] sen [env |]] |];
    try (simpl; split; [intros _; exact I | intros _; eexists; reflexivity]).
  destruct lc as [console clevel file flevel dir maxsize maxbackups maxage
                    compress timeformat rotation].
  unfold logit.misconfigured.
  cbn [logit.AppConf logit.LoggerConf logit.Env logit.configo.EnableFile
       logit.configo.EnableConsole logit.configo.RotationTime].
  destruct console, file; building;
    first
      [ split; [intros [v Hv]; discriminate Hv |];
        intros [[H1 [err H2]] | [H1 H2]]; congruence
      | split; [| intros _; eexists; reflexivity]; intros _;
        first [ left; split; [reflexivity | eexists; reflexivity]
              | right; split; reflexivity ] ].
Qed.

(** Membership in a short list that is written out. *)
Ltac in_list :=
  repeat match goal with
    | H : False |- _ => contradiction
    | H : _ \/ _ |- _ => destruct H
    | H : In _ _ |- _ => progress simpl in H
    | H : @eq logit.WriteSyncer _ _ |- _ =>
        first [discriminate H | injection H as ?; subst]
    | H : @eq logit.Effect _ _ |- _ =>
        first [discriminate H | injection H as ?; subst]
    end.

(** X16.  A logger built by [MustNewLogger] writes through a
    [TimeRotatingWriter] only with an interval above zero: when the
    rotation time parses to zero or less, the file output goes straight
    to the lumberjack sink and no [TimeRotatingWriter] is made. *)
Theorem MustNewLogger_rotates_by_time_only_when_positive :
  forall (St : Type) (w : logit.World St) (s : St)
         (ParseDuration : string -> Duration + error)
         (Join : string -> string -> string) (params : logit.Params)
         (l : logit.logIt),
    logit.ending
      (logit.perform w (logit.MustNewLogger ParseDuration Join (Some params)) s)
    = logit.Returned l ->
    (forall trw : TimeRotatingWriter,
        In (logit.AddSync_TimeRotatingWriter trw)
           (logit.syncers (logit.core (logit.logger l))) ->
        0 < rotationTime trw) /\
    (forall (lc : logit.configo.Logger) (d : Duration),
        logit.LoggerConf params = Some lc ->
        logit.configo.EnableFile lc = true ->
        ParseDuration (logit.configo.RotationTime lc) = inl d ->
        d <= 0 ->
        (exists ptr : LoggerPtr,
            In (logit.AddSync_Lumberjack ptr)
               (logit.syncers (logit.core (logit.logger l)))) /\
        forall trw : TimeRotatingWriter,
          ~ In (logit.AddSync_TimeRotatingWriter trw)
               (logit.syncers (logit.core (logit.logger l)))).
Proof.
  intros St w s ParseDuration Join [[app |] [lc |] sen [env |]] l;
    try (simpl; discriminate).
  destruct lc as [console clevel file flevel dir maxsize maxbackups maxage
                    compress timeformat rotation].
  cbn [logit.LoggerConf].
  destruct console, file; building; intros Hret;
    try discriminate Hret; injection Hret as <-;
    (split;
     [ intros trw Hin; in_list; simpl; apply Z.gtb_lt; assumption
     | intros conf dur Hlc Hfile Hparse' Hle; injection Hlc as <-;
       simpl in Hfile, Hparse'; try discriminate Hfile;
       try (rewrite Hparse' in *;
            match goal with
            | H : inl _ = inl _ |- _ => injection H as ->
            end);
       try (match goal with
            | H : (_ >? 0) = true |- _ => apply Z.gtb_lt in H; lia
            end);
       (split; [eexists; simpl; eauto | intros trw Hin; in_list]) ]).
Qed.

Lemma MustNewLogger_rotates_by_time_only_when_positive_witness :
  (exists l : logit.logIt,
      logit.ending
        (logit.perform logit.office
           (logit.MustNewLogger logit.sample_ParseDuration logit.sample_Join
              (Some (logit.sample_params "24h" false))) 0%nat)
      = logit.Returned l /\
      forall trw : TimeRotatingWriter,
        In (logit.AddSync_TimeRotatingWriter trw)
           (logit.syncers (logit.core (logit.logger l))) ->
        0 < rotationTime trw) /\
  (exists l : logit.logIt,
      logit.ending
        (logit.perform logit.office
           (logit.MustNewLogger logit.sample_ParseDuration logit.sample_Join
              (Some (logit.sample_params "0s" false))) 0%nat)
      = logit.Returned l /\
      forall trw : TimeRotatingWriter,
        ~ In (logit.AddSync_TimeRotatingWriter trw)
             (logit.syncers (logit.core (logit.logger l)))).
Proof.
  split.
  - eexists. split; [reflexivity |].
    exact (proj1 (MustNewLogger_rotates_by_time_only_when_positive nat logit.office
                    0%nat logit.sample_ParseDuration logit.sample_Join
                    (logit.sample_params "24h" false) _ eq_refl)).
  - eexists. split; [reflexivity |].
    refine (proj2 (proj2 (MustNewLogger_rotates_by_time_only_when_positive nat
                            logit.office 0%nat logit.sample_ParseDuration
                            logit.sample_Join (logit.sample_params "0s" false)
                            _ eq_refl)
                     (logit.sample_logger_conf "0s") 0 eq_refl eq_refl eq_refl _)).
    discriminate.
Defined.

(** X17.  [MustNewLogger] calls [sentry.Init] at most once, and only
    outside the local environment with a Sentry configuration whose key
    and host are both non-empty; the DSN is [https://key@host], and the
    [Debug] option it passes is never set. *)
Theorem MustNewLogger_sentry_init :
  forall (St : Type) (w : logit.World St) (s : St)
         (ParseDuration : string -> Duration + error)
         (Join : string -> string -> string) (params : option logit.Params),
    (List.length
       (filter logit.is_sentry_init
          (logit.effects
             (logit.perform w (logit.MustNewLogger ParseDuration Join params) s)))
     <= 1)%nat /\
    forall (o : logit.sentry.ClientOptions) (r : option error),
      In (logit.FxSentryInit o r)
         (logit.effects
            (logit.perform w (logit.MustNewLogger ParseDuration Join params) s)) ->
      logit.sentry.Debug o = false /\
      exists (p : logit.Params) (env : logit.configo.Env)
             (sen : logit.configo.Sentry),
        params = Some p /\ logit.Env p = Some env /\ logit.SenConf p = Some sen /\
        logit.configo.IsLocal env = false /\
        logit.configo.Key sen <> ""%string /\
        logit.configo.Host sen <> ""%string /\
        logit.sentry.Dsn o
        = ("https://" ++ logit.configo.Key sen ++ "@" ++ logit.configo.Host sen)%string.
Proof.
  intros St w s ParseDuration Join [[[app |] [lc |] sen [env |]] |];
    try (simpl; split; [lia | intros o r Hin; contradiction]).
  destruct lc as [console clevel file flevel dir maxsize maxbackups maxage
                    compress timeformat rotation].
  destruct env as [local envname].
  destruct console, file, local; building;
    (split; [lia |]); intros o r Hin; in_list;
    match goal with
    | H : negb (?k =? "")%string && negb (?h =? "")%string = true |- _ =>
        apply andb_prop in H; destruct H as [Hk Hh];
        apply negb_true_iff in Hk, Hh;
        apply String.eqb_neq in Hk, Hh
    end;
    (split; [reflexivity |]);
    do 3 eexists; repeat (split; [reflexivity |]);
    (split; [exact Hk |]); (split; [exact Hh |]); reflexivity.
Qed.

Lemma MustNewLogger_sentry_init_witness :
  In (logit.FxSentryInit
        {| logit.sentry.Dsn := "https://key@sentry.example.com";
           logit.sentry.TracesSampleRate := 1;
           logit.sentry.Debug := false;
           logit.sentry.Environment := "prod";
           logit.sentry.Release := "billing/api@1.0.0" |}
        (Some (errors_New "no route to host")))
     (logit.effects
        (logit.perform logit.offline
           (logit.MustNewLogger logit.sample_ParseDuration logit.sample_Join
              (Some (logit.sample_params "24h" false))) 0%nat)) /\
  logit.sentry.Debug
    {| logit.sentry.Dsn := "https://key@sentry.example.com";
       logit.sentry.TracesSampleRate := 1;
       logit.sentry.Debug := false;
       logit.sentry.Environment := "prod";
       logit.sentry.Release := "billing/api@1.0.0" |} = false.
Proof.
  assert (H : In (logit.FxSentryInit
                    {| logit.sentry.Dsn := "https://key@sentry.example.com";
                       logit.sentry.TracesSampleRate := 1;
                       logit.sentry.Debug := false;
                       logit.sentry.Environment := "prod";
                       logit.sentry.Release := "billing/api@1.0.0" |}
                    (Some (errors_New "no route to host")))
                 (logit.effects
                    (logit.perform logit.offline
                       (logit.MustNewLogger logit.sample_ParseDuration
                          logit.sample_Join
                          (Some (logit.sample_params "24h" false))) 0%nat)))
    by (vm_compute; auto).
  split; [exact H |].
  exact (proj1 (proj2 (MustNewLogger_sentry_init nat logit.offline 0%nat
                         logit.sample_ParseDuration logit.sample_Join
                         (Some (logit.sample_params "24h" false))) _ _ H)).
Defined.
